(** * Leader election engine of the cluster agent

    Shallow embedding of [pkg/util/kubernetes/apiserver/leaderelection/leaderelection.go]
    and the properties of its singleton accessor, its retried initialisation,
    its readiness gate and its read paths.

    Conventions.  A Go [error] value is an [option error] ([None] is [nil]).
    A Go call returning [(v, err)] whose value is stored whatever [err] is,
    is a pair; one whose value is only used when [err] is [nil] is a sum.
    [time.Duration] is a signed 64-bit count of nanoseconds, kept in [Z] with
    the wrap-around of its multiplication written out.  The two locks of the
    engine serialise the operations modelled here, every operation is one
    atomic transition on the engine record and the writes of the election
    callback are events interleaved with the steps of the polling loop. *)

From Stdlib Require Import ZArith Lia Bool Floats.
From stdpp Require Import base option list strings gmap.

Local Open Scope string_scope.

(** ** Package [time] *)

Module time.

Definition Nanosecond : Z := 1.
Definition Microsecond : Z := 1000 * Nanosecond.
Definition Millisecond : Z := 1000 * Microsecond.
Definition Second : Z := 1000 * Millisecond.

(** Two's complement reading of the low 64 bits. *)
Definition wrap64 (z : Z) : Z := ((z + 2 ^ 63) mod 2 ^ 64 - 2 ^ 63)%Z.

(** [a * b] on [time.Duration] (an [int64]). *)
Definition mul (a b : Z) : Z := wrap64 (a * b).

End time.

(** ** Errors *)

(** [metav1.StatusReason] of the API machinery, the reasons a request to the
    coordination backend can fail with. *)
Inductive StatusReason :=
| StatusReasonUnknown
| StatusReasonUnauthorized
| StatusReasonForbidden
| StatusReasonNotFound
| StatusReasonAlreadyExists
| StatusReasonConflict
| StatusReasonTimeout
| StatusReasonServerTimeout
| StatusReasonInternalError
| StatusReasonServiceUnavailable.

(** The error values that flow through the package: the status errors of the
    API machinery, opaque errors of the libraries ([os], [encoding/json], the
    transport), the formatted error of the readiness gate and the errors of
    the retry wrapper.  [ErrNotFound] is the sentinel [apiserver.ErrNotFound],
    whose declaration is not among the sources: the spec calls it a distinct
    "not found" error kind. *)
#[warnings="-register-all"]
Inductive error :=
| StatusError (reason : StatusReason) (message : string)
| ErrNotFound
| ErrorString (message : string)
| Errorf (format : string) (duration : Z)
| RetryError (logicError : string) (lastTryError : option error).

Definition StatusReason_eqb (a b : StatusReason) : bool :=
  match a, b with
  | StatusReasonUnknown, StatusReasonUnknown
  | StatusReasonUnauthorized, StatusReasonUnauthorized
  | StatusReasonForbidden, StatusReasonForbidden
  | StatusReasonNotFound, StatusReasonNotFound
  | StatusReasonAlreadyExists, StatusReasonAlreadyExists
  | StatusReasonConflict, StatusReasonConflict
  | StatusReasonTimeout, StatusReasonTimeout
  | StatusReasonServerTimeout, StatusReasonServerTimeout
  | StatusReasonInternalError, StatusReasonInternalError
  | StatusReasonServiceUnavailable, StatusReasonServiceUnavailable => true
  | _, _ => false
  end.

Module errors.

(** [errors.ReasonForError]: only errors carrying an API status have a
    reason, every other error is of unknown reason. *)
Definition ReasonForError (err : error) : StatusReason :=
  match err with
  | StatusError reason _ => reason
  | _ => StatusReasonUnknown
  end.

Definition IsNotFound (err : error) : bool :=
  StatusReason_eqb (ReasonForError err) StatusReasonNotFound.

End errors.

(** ** Constants of the package *)

Definition defaultLeaderLeaseDuration : Z := 60 * time.Second.
Definition defaultLeaseName : string := "datadog-leader-election".
Definition clientTimeout : Z := 2 * time.Second.

(** ** The retry wrapper *)

Module retry.

(** Modelled from the spec: package [pkg/util/retry] is not among the
    sources.  The two strategies of a retrier: a single attempt, or "a
    bounded count of attempts". *)
Inductive Strategy := OneTry | RetryCount.

(** Modelled from the spec: package [pkg/util/retry] is not among the
    sources.  Where a retrier stands: not configured, configured and not tried
    yet, succeeded (the memo), failed with attempts left, failed with "the
    retry budget exhausted". *)
Inductive Status := NeedSetup | Idle | OK | FailWillRetry | PermaFail.

(** Modelled from the spec: package [pkg/util/retry] is not among the
    sources.  The fields are those the accessor sets.  The attempt method is
    a method value bound to the engine that owns the retrier; it is passed to
    [TriggerRetry] below. *)
Record Config := {
  cfgName : string;
  cfgStrategy : Strategy;
  cfgRetryCount : nat;
  cfgRetryDelay : Z
}.

(** Modelled from the spec: package [pkg/util/retry] is not among the
    sources.  The retrier "owns the has initialization already succeeded
    memo", counts the attempts and knows when the next one is due. *)
Record Retrier := {
  cfg : option Config;
  status : Status;
  tryCount : nat;
  nextTry : Z;
  lastTryError : option error
}.

(** The zero value of the struct. *)
Definition zero : Retrier :=
  {| cfg := None; status := NeedSetup; tryCount := 0; nextTry := 0;
     lastTryError := None |}.

(** Modelled from the spec: package [pkg/util/retry] is not among the
    sources.  Binding a configuration arms the retrier: no attempt has been
    made and the first trigger may try at once. *)
Definition SetupRetrier (c : Config) (r : Retrier) : Retrier :=
  {| cfg := Some c; status := Idle; tryCount := 0; nextTry := 0;
     lastTryError := None |}.

(** Modelled from the spec: package [pkg/util/retry] is not among the
    sources.  The error of the wrapper, carrying the error of the last
    attempt. *)
Definition errorf (r : Retrier) (logic : string) : error :=
  RetryError logic (lastTryError r).

(** Modelled from the spec: the bookkeeping after one attempt.  "Given an
    initialization function, invokes it with a bounded count of attempts
    and a fixed delay, memoizing success so that subsequent calls are
    no-ops": a success is memoised, a failure is counted against the budget
    of the configuration and the next attempt is due one delay later. *)
Definition record_try (now : Z) (c : Config) (err : option error)
    (r : Retrier) : Retrier :=
  match err with
  | None =>
      {| cfg := cfg r; status := OK; tryCount := tryCount r;
         nextTry := nextTry r; lastTryError := None |}
  | Some e =>
      match cfgStrategy c with
      | OneTry =>
          {| cfg := cfg r; status := PermaFail; tryCount := tryCount r;
             nextTry := nextTry r; lastTryError := Some e |}
      | RetryCount =>
          {| cfg := cfg r;
             status := if (cfgRetryCount c <=? S (tryCount r))%nat
                       then PermaFail else FailWillRetry;
             tryCount := S (tryCount r);
             nextTry := (now + cfgRetryDelay c)%Z;
             lastTryError := Some e |}
      end
  end.

(** Modelled from the spec: package [pkg/util/retry] is not among the
    sources.  No error once the success is memoised, an error otherwise. *)
Definition LastError (r : Retrier) : option error :=
  match status r with
  | OK => None
  | NeedSetup => Some (errorf r "retrier not initialised")
  | Idle => Some (errorf r "no attempt made yet")
  | FailWillRetry => Some (errorf r "attempt failed, will retry")
  | PermaFail => Some (errorf r "retry number exceeded")
  end.

Section Trigger.
(** The retrier lives in a field of the object its attempt method mutates:
    [get] and [set] are the field access, [attempt] the bound method. *)
Context {Owner : Type}.
Variable get : Owner -> Retrier.
Variable set : Retrier -> Owner -> Owner.
Variable attempt : Owner -> option error * Owner.

(** Modelled from the spec: a memoised success returns at once; an
    exhausted budget and a delay not yet elapsed are reported without an
    attempt; otherwise the attempt method runs once and its outcome is
    recorded. *)
Definition TriggerRetry (now : Z) (s : Owner) : option error * Owner :=
  let r := get s in
  match status r, cfg r with
  | OK, _ => (None, s)
  | NeedSetup, _ | _, None => (Some (errorf r "retrier not initialised"), s)
  | PermaFail, _ => (Some (errorf r "retry number exceeded"), s)
  | _, Some c =>
      if (now <? nextTry r)%Z
      then (Some (errorf r "try delay not elapsed yet"), s)
      else
        let '(err, s') := attempt s in
        let r' := record_try now c err (get s') in
        (LastError r', set r' s')
  end.
End Trigger.

End retry.

(** ** The coordination backend, at its interface *)

(** [corev1.CoreV1Client]: the handle on the backend, named by the host it
    talks to. *)
Record CoreV1Client := { Host : string }.

(** [apiserver.APIClient] *)
Record APIClient := { Client : CoreV1Client }.

(** [v1.ConfigMap], the coordination record. *)
Record ConfigMap := {
  cmName : string;
  cmNamespace : string;
  Annotations : gmap string string
}.

Module rl.

Definition LeaderElectionRecordAnnotationKey : string :=
  "control-plane.alpha.kubernetes.io/leader".

(** [resourcelock.LeaderElectionRecord], the decoded annotation. *)
Record LeaderElectionRecord := {
  HolderIdentity : string;
  LeaseDurationSeconds : Z;
  AcquireTime : string;
  RenewTime : string;
  LeaderTransitions : Z
}.

(** The zero value: [var led rl.LeaderElectionRecord]. *)
Definition zero : LeaderElectionRecord :=
  {| HolderIdentity := ""; LeaseDurationSeconds := 0; AcquireTime := "";
     RenewTime := ""; LeaderTransitions := 0 |}.

End rl.

(** Modelled from the spec: [newElection] is defined in a file of the package
    that is not among the sources.  The election state machine is "bound to
    the resolved identity, namespace, lease name, and lease duration". *)
Record LeaderElector := {
  electorIdentity : string;
  electorLeaseName : string;
  electorNamespace : string;
  electorLeaseDuration : Z
}.

(** What the process sees of its surroundings at the time of one call: the
    clock, the host, the configuration and the answers of the backend. *)
Record Env := {
  (** [time.Now()], in nanoseconds *)
  now : Z;
  (** [os.Hostname()] *)
  os_Hostname : string * option error;
  (** [config.Datadog.GetInt("leader_lease_duration")] *)
  leader_lease_duration : Z;
  (** [apiserver.GetResourcesNamespace()] *)
  GetResourcesNamespace : string;
  (** [apiserver.GetAPIClient()] *)
  GetAPIClient : APIClient + error;
  (** [client.ConfigMaps(namespace).Get(name, metav1.GetOptions{})] *)
  ConfigMaps_Get : CoreV1Client -> string -> string -> ConfigMap + error;
  (** whether the election state machine can be constructed *)
  election_error : option error;
  (** [json.Unmarshal([]byte(annotation), &led)]: the record as the decoder
      leaves it, and the decoding error *)
  json_Unmarshal : string -> rl.LeaderElectionRecord ->
                   rl.LeaderElectionRecord * option error
}.

(** ** The engine *)

(** The struct, without its two locks: [once] is the done flag of the
    [sync.Once]. *)
Record LeaderEngine := {
  initRetry : retry.Retrier;
  running : bool;
  once : bool;
  HolderIdentity : string;
  LeaseDuration : Z;
  LeaseName : string;
  LeaderNamespace : string;
  coreClient : option CoreV1Client;
  leaderElector : option LeaderElector;
  currentHolderIdentity : string
}.

Definition set_initRetry (r : retry.Retrier) (le : LeaderEngine) : LeaderEngine :=
  {| initRetry := r; running := running le; once := once le;
     HolderIdentity := HolderIdentity le; LeaseDuration := LeaseDuration le;
     LeaseName := LeaseName le; LeaderNamespace := LeaderNamespace le;
     coreClient := coreClient le; leaderElector := leaderElector le;
     currentHolderIdentity := currentHolderIdentity le |}.

Definition set_running (b : bool) (le : LeaderEngine) : LeaderEngine :=
  {| initRetry := initRetry le; running := b; once := once le;
     HolderIdentity := HolderIdentity le; LeaseDuration := LeaseDuration le;
     LeaseName := LeaseName le; LeaderNamespace := LeaderNamespace le;
     coreClient := coreClient le; leaderElector := leaderElector le;
     currentHolderIdentity := currentHolderIdentity le |}.

Definition set_once (b : bool) (le : LeaderEngine) : LeaderEngine :=
  {| initRetry := initRetry le; running := running le; once := b;
     HolderIdentity := HolderIdentity le; LeaseDuration := LeaseDuration le;
     LeaseName := LeaseName le; LeaderNamespace := LeaderNamespace le;
     coreClient := coreClient le; leaderElector := leaderElector le;
     currentHolderIdentity := currentHolderIdentity le |}.

Definition set_HolderIdentity (s : string) (le : LeaderEngine) : LeaderEngine :=
  {| initRetry := initRetry le; running := running le; once := once le;
     HolderIdentity := s; LeaseDuration := LeaseDuration le;
     LeaseName := LeaseName le; LeaderNamespace := LeaderNamespace le;
     coreClient := coreClient le; leaderElector := leaderElector le;
     currentHolderIdentity := currentHolderIdentity le |}.

Definition set_LeaseDuration (d : Z) (le : LeaderEngine) : LeaderEngine :=
  {| initRetry := initRetry le; running := running le; once := once le;
     HolderIdentity := HolderIdentity le; LeaseDuration := d;
     LeaseName := LeaseName le; LeaderNamespace := LeaderNamespace le;
     coreClient := coreClient le; leaderElector := leaderElector le;
     currentHolderIdentity := currentHolderIdentity le |}.

Definition set_coreClient (c : option CoreV1Client) (le : LeaderEngine) : LeaderEngine :=
  {| initRetry := initRetry le; running := running le; once := once le;
     HolderIdentity := HolderIdentity le; LeaseDuration := LeaseDuration le;
     LeaseName := LeaseName le; LeaderNamespace := LeaderNamespace le;
     coreClient := c; leaderElector := leaderElector le;
     currentHolderIdentity := currentHolderIdentity le |}.

Definition set_leaderElector (e : option LeaderElector) (le : LeaderEngine) : LeaderEngine :=
  {| initRetry := initRetry le; running := running le; once := once le;
     HolderIdentity := HolderIdentity le; LeaseDuration := LeaseDuration le;
     LeaseName := LeaseName le; LeaderNamespace := LeaderNamespace le;
     coreClient := coreClient le; leaderElector := e;
     currentHolderIdentity := currentHolderIdentity le |}.

Definition set_currentHolderIdentity (s : string) (le : LeaderEngine) : LeaderEngine :=
  {| initRetry := initRetry le; running := running le; once := once le;
     HolderIdentity := HolderIdentity le; LeaseDuration := LeaseDuration le;
     LeaseName := LeaseName le; LeaderNamespace := LeaderNamespace le;
     coreClient := coreClient le; leaderElector := leaderElector le;
     currentHolderIdentity := s |}.

Definition newLeaderEngine (env : Env) : LeaderEngine :=
  let leaderNamespace := GetResourcesNamespace env in
  {| initRetry := retry.zero; running := false; once := false;
     HolderIdentity := ""; LeaseDuration := 0;
     LeaseName := defaultLeaseName; LeaderNamespace := leaderNamespace;
     coreClient := None; leaderElector := None;
     currentHolderIdentity := "" |}.

(** ** Holder queries *)

Definition CurrentLeaderName (le : LeaderEngine) : string :=
  currentHolderIdentity le.

Definition IsLeader (le : LeaderEngine) : bool :=
  String.eqb (CurrentLeaderName le) (HolderIdentity le).

(** Modelled from the spec: the callbacks are installed by [newElection],
    which is not among the sources.  "The state machine's holder changed
    callback is the only writer of currentHolderIdentity". *)
Definition OnNewLeader (identity : string) (le : LeaderEngine) : LeaderEngine :=
  set_currentHolderIdentity identity le.

(** ** Initialisation *)

(** A method on the engine that may return early with an error: it threads
    the engine and stops at the first error, keeping the writes made so
    far. *)
Definition M (A : Type) : Type := LeaderEngine -> (A + error) * LeaderEngine.

Definition ret {A} (a : A) : M A := fun le => (inl a, le).

Definition fail {A} (e : error) : M A := fun le => (inr e, le).

Definition bind {A B} (m : M A) (k : A -> M B) : M B :=
  fun le =>
    match m le with
    | (inl a, le') => k a le'
    | (inr e, le') => (inr e, le')
    end.

#[local] Instance M_ret : MRet M := @ret.
#[local] Instance M_bind : MBind M := fun A B k m => bind m k.

Definition read {A} (f : LeaderEngine -> A) : M A := fun le => (inl (f le), le).

Definition modify (f : LeaderEngine -> LeaderEngine) : M unit :=
  fun le => (inl tt, f le).

(** [if err != nil { return err }] *)
Definition check (err : option error) : M unit :=
  match err with
  | None => ret tt
  | Some e => fail e
  end.

Definition lift {A} (r : A + error) : M A :=
  match r with
  | inl a => ret a
  | inr e => fail e
  end.

Definition when (b : bool) (m : M unit) : M unit := if b then m else ret tt.

(** The error a method leaves, as a Go [error]. *)
Definition run (m : M unit) (le : LeaderEngine) : option error * LeaderEngine :=
  match m le with
  | (inl _, le') => (None, le')
  | (inr e, le') => (Some e, le')
  end.

(** Modelled from the spec: [newElection] is not among the sources.  It
    constructs "the election state machine (the run loop object) bound to the
    resolved identity, namespace, lease name, and lease duration", or fails. *)
Definition newElection (env : Env) (le : LeaderEngine)
    (electionId namespace : string) (ttl : Z)
    : option LeaderElector * option error :=
  match election_error env with
  | Some e => (None, Some e)
  | None =>
      (Some {| electorIdentity := HolderIdentity le;
               electorLeaseName := electionId;
               electorNamespace := namespace;
               electorLeaseDuration := ttl |}, None)
  end.

(** [GetInt] returns an [int], 64 bits wide on the platforms of the agent. *)
Definition config_GetInt_leader_lease_duration (env : Env) : Z :=
  time.wrap64 (leader_lease_duration env).

Definition init_body (env : Env) : M unit :=
  holder ← read HolderIdentity;
  when (String.eqb holder "")
    (let '(name, err) := os_Hostname env in
     modify (set_HolderIdentity name);;
     check err);;
  let leaseDuration := config_GetInt_leader_lease_duration env in
  when (negb (leaseDuration =? 0)%Z)
    (modify (set_LeaseDuration (time.mul leaseDuration time.Second)));;
  d ← read LeaseDuration;
  when (d =? 0)%Z (modify (set_LeaseDuration defaultLeaderLeaseDuration));;
  apiClient ← lift (GetAPIClient env);
  modify (set_coreClient (Some (Client apiClient)));;
  ns ← read LeaderNamespace;
  match ConfigMaps_Get env (Client apiClient) ns defaultLeaseName with
  | inr err => when (negb (errors.IsNotFound err)) (fail err)
  | inl _ => ret tt
  end;;
  le ← read (fun le => le);
  let '(elector, err) :=
    newElection env le (LeaseName le) (LeaderNamespace le) (LeaseDuration le) in
  modify (set_leaderElector elector);;
  check err.

(** [func (le *LeaderEngine) init() error] *)
Definition init (env : Env) (le : LeaderEngine) : option error * LeaderEngine :=
  run (init_body env) le.

(** ** The singleton accessor *)

(** The package-level state: the global engine pointer, as the address of the
    engine and the engine it points to, and the number of engines allocated so
    far, which is the next fresh address. *)
Record Package := {
  allocated : nat;
  globalLeaderEngine : option (nat * LeaderEngine)
}.

Definition ResetGlobalLeaderEngine (p : Package) : Package :=
  {| allocated := allocated p; globalLeaderEngine := None |}.

Definition initRetry_config : retry.Config :=
  {| retry.cfgName := "leaderElection";
     retry.cfgStrategy := retry.RetryCount;
     retry.cfgRetryCount := 10;
     retry.cfgRetryDelay := 30 * time.Second |}.

(** [le.initRetry.TriggerRetry()], the attempt method being [le.init]. *)
Definition initRetry_TriggerRetry (env : Env) (le : LeaderEngine)
    : option error * LeaderEngine :=
  retry.TriggerRetry initRetry set_initRetry (init env) (now env) le.

(** The result is the returned pointer (an address, [None] is [nil]) and the
    returned error. *)
Definition GetCustomLeaderEngine (env : Env) (holderIdentity : string) (ttl : Z)
    (p : Package) : (option nat * option error) * Package :=
  let '(addr, le, count) :=
    match globalLeaderEngine p with
    | None =>
        let le := newLeaderEngine env in
        let le := set_HolderIdentity holderIdentity le in
        let le := set_LeaseDuration ttl le in
        let le :=
          set_initRetry (retry.SetupRetrier initRetry_config (initRetry le)) le in
        (allocated p, le, S (allocated p))
    | Some (addr, le) => (addr, le, allocated p)
    end in
  let '(err, le) := initRetry_TriggerRetry env le in
  let p := {| allocated := count; globalLeaderEngine := Some (addr, le) |} in
  match err with
  | Some e => ((None, Some e), p)
  | None => ((Some addr, None), p)
  end.

Definition GetLeaderEngine (env : Env) (p : Package)
    : (option nat * option error) * Package :=
  GetCustomLeaderEngine env "" defaultLeaderLeaseDuration p.

(** ** The readiness gate *)

Definition timeoutDuration : Z := clientTimeout * 2.
Definition tickPeriod : Z := time.Millisecond * 500.

(** [fmt.Errorf(..., timeoutDuration.String())], with the duration it
    prints. *)
Definition timeoutError : error :=
  Errorf "leader election still not running, timeout after %s" timeoutDuration.

(** What happens while a caller waits in the [select]: the election callback
    stores a holder identity, the ticker delivers or the timeout delivers.
    The two channels deliver the time of the delivery, counted from the
    call. *)
Inductive event :=
| NewLeader (identity : string)
| Tick (at_ : Z)
| Timeout (at_ : Z).

(** The [for { select { ... } }] loop over the events that occur while it
    waits.  The outcome is [None] when the events end with the loop still
    waiting in the [select]. *)
Fixpoint poll (evs : list event) (le : LeaderEngine)
    : option (option error) * LeaderEngine * list event :=
  match evs with
  | [] => (None, le, [])
  | NewLeader identity :: evs' => poll evs' (OnNewLeader identity le)
  | Tick _ :: evs' =>
      let leaderIdentity := CurrentLeaderName le in
      if negb (String.eqb leaderIdentity "")
      then (Some None, set_running true le, evs')
      else poll evs' le
  | Timeout _ :: evs' => (Some (Some timeoutError), le, evs')
  end.

(** An engine in its process: the run loops started so far, each with the
    elector it runs, and the events still to come during the current call. *)
Record World := {
  engine : LeaderEngine;
  runLoops : list (option LeaderElector);
  pending : list event
}.

(** [go le.leaderElector.Run()] *)
Definition go_Run (w : World) : World :=
  {| engine := engine w;
     runLoops := (runLoops w ++ [leaderElector (engine w)])%list;
     pending := pending w |}.

(** [le.once.Do(f)] *)
Definition once_Do (f : World -> World) (w : World) : World :=
  if once (engine w) then w
  else
    let w' := f w in
    {| engine := set_once true (engine w');
       runLoops := runLoops w';
       pending := pending w' |}.

Definition EnsureLeaderElectionRuns (w : World) : option (option error) * World :=
  if running (engine w) then (Some None, w)
  else
    let w := once_Do go_Run w in
    let '(r, le, rest) := poll (pending w) (engine w) in
    (r, {| engine := le; runLoops := runLoops w; pending := rest |}).

(** *** The two timers on an ideal clock *)

(** The first [n] deliveries of a ticker of the given period. *)
Definition ticker (period : Z) (n : nat) : list event :=
  map (fun k => Tick (Z.of_nat k * period)) (seq 1 n).

(** How many deliveries of the ticker are due strictly before the deadline,
    and whether one is due at the deadline itself. *)
Definition due_before (period deadline : Z) : nat :=
  Z.to_nat ((deadline - 1) / period).

Definition due_at (period deadline : Z) : bool :=
  (deadline mod period =? 0)%Z.

(** The deliveries of [time.NewTicker(tickPeriod)] and
    [time.After(timeoutDuration)] in the order the [select] takes them.  A
    tick due at the deadline is ready together with the timeout, and the
    [select] picks either: [tick_first] is its choice. *)
Definition timers (tick_first : bool) : list event :=
  ticker tickPeriod
    (due_before tickPeriod timeoutDuration
     + (if due_at tickPeriod timeoutDuration && tick_first then 1 else 0))
  ++ [Timeout timeoutDuration].

(** The callback writes that land before each delivery: [writes k] are those
    before the delivery of index [k]. *)
Fixpoint interleave (writes : nat -> list string) (k : nat)
    (deliveries : list event) : list event :=
  match deliveries with
  | [] => []
  | d :: ds => map NewLeader (writes k) ++ d :: interleave writes (S k) ds
  end.

(** *** Sequences of calls on one engine *)

(** A caller runs the gate to its return while some events occur, or the
    callback fires between two calls. *)
Inductive step :=
| Call (during : list event)
| Callback (identity : string).

Definition do_step (s : step) (w : World) : World :=
  match s with
  | Call during =>
      snd (EnsureLeaderElectionRuns
             {| engine := engine w; runLoops := runLoops w; pending := during |})
  | Callback identity =>
      {| engine := OnNewLeader identity (engine w);
         runLoops := runLoops w; pending := pending w |}
  end.

Definition do_steps (ss : list step) (w : World) : World :=
  fold_left (fun w s => do_step s w) ss w.

(** ** Lease-record introspection *)

(** The requests a read path sends out, in order. *)
Inductive request :=
| ReqGetAPIClient
| ReqConfigMapsGet (namespace name : string)
| ReqUnmarshal (payload : string).

(** The result is the pair the function returns and the requests it made. *)
Definition GetLeaderDetails (env : Env)
    : (rl.LeaderElectionRecord * option error) * list request :=
  let led := rl.zero in
  match GetAPIClient env with
  | inr err => ((led, Some err), [ReqGetAPIClient])
  | inl client =>
      let c := Client client in
      let leaderNamespace := GetResourcesNamespace env in
      let sent := [ReqGetAPIClient; ReqConfigMapsGet leaderNamespace defaultLeaseName] in
      match ConfigMaps_Get env c leaderNamespace defaultLeaseName with
      | inr err => ((led, Some err), sent)
      | inl leaderElectionCM =>
          match Annotations leaderElectionCM !! rl.LeaderElectionRecordAnnotationKey with
          | None => ((led, Some ErrNotFound), sent)
          | Some annotation =>
              let '(led, err) := json_Unmarshal env annotation led in
              let sent := (sent ++ [ReqUnmarshal annotation])%list in
              match err with
              | Some e => ((led, Some e), sent)
              | None => ((led, None), sent)
              end
          end
      end
  end.

(** ** Notions used in the statements *)

(** The lease duration an attempt settles on, once the identity is known. *)
Definition resolved_lease (env : Env) (le : LeaderEngine) : Z :=
  let configured := config_GetInt_leader_lease_duration env in
  let overridden :=
    if (configured =? 0)%Z then LeaseDuration le
    else time.mul configured time.Second in
  if (overridden =? 0)%Z then defaultLeaderLeaseDuration else overridden.

(** The engine a call of the accessor triggers: the singleton if there is
    one, the engine it builds from its arguments otherwise. *)
Definition singleton (env : Env) (holderIdentity : string) (ttl : Z)
    (p : Package) : LeaderEngine :=
  match globalLeaderEngine p with
  | Some (_, le) => le
  | None =>
      set_initRetry (retry.SetupRetrier initRetry_config retry.zero)
        (set_LeaseDuration ttl
           (set_HolderIdentity holderIdentity (newLeaderEngine env)))
  end.

(** The engine after the callback writes among some events. *)
Fixpoint apply_writes (evs : list event) (le : LeaderEngine) : LeaderEngine :=
  match evs with
  | [] => le
  | NewLeader identity :: evs' => apply_writes evs' (OnNewLeader identity le)
  | _ :: evs' => apply_writes evs' le
  end.

(** Whether a caller that waits through the events is still waiting after
    them: no timeout is delivered and every tick finds the holder identity
    empty. *)
Fixpoint unanswered (evs : list event) (le : LeaderEngine) : bool :=
  match evs with
  | [] => true
  | NewLeader identity :: evs' => unanswered evs' (OnNewLeader identity le)
  | Tick _ :: evs' => String.eqb (CurrentLeaderName le) "" && unanswered evs' le
  | Timeout _ :: _ => false
  end.

(** Events among which no holder appears: ticks, and callback writes of the
    empty identity. *)
Definition quiet_event (e : event) : bool :=
  match e with
  | NewLeader identity => String.eqb identity ""
  | Tick _ => true
  | Timeout _ => false
  end.

Definition quiet (evs : list event) : bool := forallb quiet_event evs.

(** What the run-once guard of the gate adds to the run loops. *)
Definition launch (le : LeaderEngine) : list (option LeaderElector) :=
  if once le then [] else [leaderElector le].

(** What a sequence of calls and callbacks keeps true of an engine that
    started as [le] with no run loop: either the guard is as it was and no
    loop has been started, or the guard has fired in the sequence and started
    the one loop. *)
Definition launched_once (le : LeaderEngine) (w : World) : Prop :=
  leaderElector (engine w) = leaderElector le
  ∧ (once (engine w) = once le ∧ runLoops w = []
     ∨ once le = false ∧ once (engine w) = true
       ∧ runLoops w = [leaderElector le]).

Ltac unfold_init :=
  unfold init, run, init_body, newElection, mbind, M_bind, bind, read, modify,
    when, check, lift, mret, M_ret, ret, fail.

(** ** Sequences of calls of the accessor *)

(** What the users of the package do to its global: ask for the engine, with
    arguments or with the defaults, and, in tests, reset it. *)
Inductive access :=
| Get (env : Env) (holderIdentity : string) (ttl : Z)
| GetDefault (env : Env)
| Reset.

Definition do_access (a : access) (p : Package) : Package :=
  match a with
  | Get env holderIdentity ttl => (GetCustomLeaderEngine env holderIdentity ttl p).2
  | GetDefault env => (GetLeaderEngine env p).2
  | Reset => ResetGlobalLeaderEngine p
  end.

Definition do_accesses (acs : list access) (p : Package) : Package :=
  fold_left (fun p a => do_access a p) acs p.

(** The package of a process that has not asked for the engine yet. *)
Definition no_engine : Package := {| allocated := 0; globalLeaderEngine := None |}.

(** An attempt whose every step goes through: the identity is set or the host
    name resolves, the client is there, the probe finds the record or finds
    that there is none, and the election state machine is constructed. *)
Definition steps_pass (env : Env) (le : LeaderEngine) : Prop :=
  (HolderIdentity le ≠ "" ∨ (os_Hostname env).2 = None)
  ∧ (∃ client, GetAPIClient env = inl client
       ∧ match ConfigMaps_Get env (Client client) (LeaderNamespace le)
                 defaultLeaseName with
         | inl _ => True
         | inr e => errors.IsNotFound e = true
         end)
  ∧ election_error env = None.

(** An engine that can run the election: it has its client and its elector,
    and a lease that is not zero. *)
Definition ready (le : LeaderEngine) : Prop :=
  is_Some (coreClient le) ∧ is_Some (leaderElector le) ∧ LeaseDuration le ≠ 0%Z.

(** What every sequence of accesses keeps true of the package: the singleton,
    if any, lives at an address that has been allocated, its retrier carries
    the configuration of the accessor, and it is ready whenever its retrier
    holds a success. *)
Definition package_ok (p : Package) : Prop :=
  match globalLeaderEngine p with
  | None => True
  | Some (addr, le) =>
      (addr < allocated p)%nat
      ∧ retry.cfg (initRetry le) = Some initRetry_config
      ∧ (retry.status (initRetry le) = retry.OK → ready le)
  end.

(** ** Package [aggregator]: rates over a flush period *)

Module aggregator.

(** The errors of a flush: no serie to report, or whatever the histogram
    reports. *)
Inductive error :=
| NoSerieError
| HistogramError (message : string).

(** [MetricSample], of which the rate only reads and sets the value. *)
Record MetricSample := { Value : float }.

(** [Historate], over the histogram it feeds. *)
Record Historate (Histogram : Type) := {
  histogram : Histogram;
  previousSample : float;
  previousTimestamp : float;
  sampled : bool
}.

Arguments histogram {Histogram} _.
Arguments previousSample {Histogram} _.
Arguments previousTimestamp {Histogram} _.
Arguments sampled {Histogram} _.

(** [x != 0] on [float64]: true of a NaN, false of both zeros. *)
Definition nonzero (x : float) : bool := negb (PrimFloat.eqb x 0%float).

Section Historate.

(** The histogram and its series are declared elsewhere in the package. *)
Context {Histogram Serie : Type}.
Variable Histogram_addSample : MetricSample -> float -> Histogram -> Histogram.
Variable Histogram_flush :
  float -> Histogram -> (list Serie * option error) * Histogram.

Definition addSample (sample : MetricSample) (timestamp : float)
    (h : Historate Histogram) : Historate Histogram :=
  let h :=
    if nonzero (previousTimestamp h)
    then
      let v :=
        PrimFloat.div (PrimFloat.sub (Value sample) (previousSample h))
          (PrimFloat.sub timestamp (previousTimestamp h)) in
      {| histogram := Histogram_addSample {| Value := v |} timestamp (histogram h);
         previousSample := previousSample h;
         previousTimestamp := previousTimestamp h;
         sampled := true |}
    else h in
  {| histogram := histogram h;
     previousSample := Value sample;
     previousTimestamp := timestamp;
     sampled := sampled h |}.

Definition flush (timestamp : float) (h : Historate Histogram)
    : (list Serie * option error) * Historate Histogram :=
  if negb (sampled h) then (([], Some NoSerieError), h)
  else
    let '(r, hist) := Histogram_flush timestamp (histogram h) in
    (r, {| histogram := hist;
           previousSample := 0%float;
           previousTimestamp := 0%float;
           sampled := false |}).

(** Samples added one after the other. *)
Definition addSamples (samples : list (MetricSample * float))
    (h : Historate Histogram) : Historate Histogram :=
  fold_left (fun h s => addSample s.1 s.2 h) samples h.

(** The rates between consecutive samples, each with the timestamp of the
    later sample, after a sample of value [v] at [t]. *)
Fixpoint rates (v t : float) (samples : list (MetricSample * float))
    : list (MetricSample * float) :=
  match samples with
  | [] => []
  | (s, t') :: rest =>
      ({| Value := PrimFloat.div (PrimFloat.sub (Value s) v) (PrimFloat.sub t' t) |}, t')
      :: rates (Value s) t' rest
  end.

(** The histogram fed with samples one after the other. *)
Definition feed (samples : list (MetricSample * float)) (hist : Histogram)
    : Histogram :=
  fold_left (fun hist s => Histogram_addSample s.1 s.2 hist) samples hist.

End Historate.

End aggregator.

(** * Properties *)

(** ** Sample surroundings *)

Module sample.

Definition client : APIClient := {| Client := {| Host := "https://10.0.0.1:443" |} |}.

Definition record : rl.LeaderElectionRecord :=
  {| rl.HolderIdentity := "pod-a"; rl.LeaseDurationSeconds := 60;
     rl.AcquireTime := "2018-05-02T08:00:00Z";
     rl.RenewTime := "2018-05-02T08:10:00Z"; rl.LeaderTransitions := 3 |}.

Definition payload : string := "{'holderIdentity':'pod-a'}".

(** A decoder that knows one well-formed payload and rejects the rest. *)
Definition decode (annotation : string) (led : rl.LeaderElectionRecord)
    : rl.LeaderElectionRecord * option error :=
  if String.eqb annotation payload then (record, None)
  else (led, Some (ErrorString "invalid character in annotation")).

Definition lease : ConfigMap :=
  {| cmName := defaultLeaseName; cmNamespace := "default";
     Annotations := {[ rl.LeaderElectionRecordAnnotationKey := payload ]} |}.

(** A healthy cluster whose coordination record does not exist yet. *)
Definition fresh_cluster : Env :=
  {| now := 0;
     os_Hostname := ("node-1", None);
     leader_lease_duration := 0;
     GetResourcesNamespace := "default";
     GetAPIClient := inl client;
     ConfigMaps_Get := fun _ _ _ =>
       inr (StatusError StatusReasonNotFound "configmaps not found");
     election_error := None;
     json_Unmarshal := decode |}.

(** The same cluster one minute later, with the record in place. *)
Definition settled_cluster : Env :=
  {| now := 60 * time.Second;
     os_Hostname := ("node-1", None);
     leader_lease_duration := 0;
     GetResourcesNamespace := "default";
     GetAPIClient := inl client;
     ConfigMaps_Get := fun _ _ _ => inl lease;
     election_error := None;
     json_Unmarshal := decode |}.

(** A host whose name cannot be resolved. *)
Definition nameless_host : Env :=
  {| now := 0;
     os_Hostname := ("", Some (ErrorString "hostname: no such device"));
     leader_lease_duration := 0;
     GetResourcesNamespace := "default";
     GetAPIClient := inl client;
     ConfigMaps_Get := fun _ _ _ => inl lease;
     election_error := None;
     json_Unmarshal := decode |}.

(** A cluster that refuses the probe of the coordination record. *)
Definition forbidden_cluster : Env :=
  {| now := 0;
     os_Hostname := ("node-1", None);
     leader_lease_duration := 15;
     GetResourcesNamespace := "default";
     GetAPIClient := inl client;
     ConfigMaps_Get := fun _ _ _ =>
       inr (StatusError StatusReasonForbidden "configmaps is forbidden");
     election_error := None;
     json_Unmarshal := decode |}.

(** A cluster whose coordination record carries no election annotation. *)
Definition unannotated_cluster : Env :=
  {| now := 0;
     os_Hostname := ("node-1", None);
     leader_lease_duration := 0;
     GetResourcesNamespace := "default";
     GetAPIClient := inl client;
     ConfigMaps_Get := fun _ _ _ =>
       inl {| cmName := defaultLeaseName; cmNamespace := "default";
              Annotations := {[ "owner" := "cluster-agent" ]} |};
     election_error := None;
     json_Unmarshal := decode |}.

(** A cluster whose election annotation is cut short. *)
Definition garbled_cluster : Env :=
  {| now := 0;
     os_Hostname := ("node-1", None);
     leader_lease_duration := 0;
     GetResourcesNamespace := "default";
     GetAPIClient := inl client;
     ConfigMaps_Get := fun _ _ _ =>
       inl {| cmName := defaultLeaseName; cmNamespace := "default";
              Annotations :=
                {[ rl.LeaderElectionRecordAnnotationKey := "{'holderIdentity':" ]} |};
     election_error := None;
     json_Unmarshal := decode |}.

(** A process that cannot reach the backend at all. *)
Definition offline : Env :=
  {| now := 0;
     os_Hostname := ("node-1", None);
     leader_lease_duration := 0;
     GetResourcesNamespace := "default";
     GetAPIClient := inr (ErrorString "unable to load in-cluster configuration");
     ConfigMaps_Get := fun _ _ _ => inl lease;
     election_error := None;
     json_Unmarshal := decode |}.

Definition empty_package : Package :=
  {| allocated := 0; globalLeaderEngine := None |}.

(** The engine as [GetLeaderEngine] builds it, before any initialisation. *)
Definition blank : LeaderEngine :=
  set_initRetry (retry.SetupRetrier initRetry_config retry.zero)
    (set_LeaseDuration defaultLeaderLeaseDuration
       (set_HolderIdentity "" (newLeaderEngine fresh_cluster))).

(** An engine for ["pod-a"] whose initialisation went through. *)
Definition pod_a : LeaderEngine :=
  (init fresh_cluster (set_HolderIdentity "pod-a" blank)).2.

(** The package after a first [GetLeaderEngine] on the healthy cluster, and
    the singleton it installed. *)
Definition installed : Package := (GetLeaderEngine fresh_cluster empty_package).2.

Definition initialised : LeaderEngine :=
  match globalLeaderEngine installed with
  | Some (_, le) => le
  | None => blank
  end.

(** The package after a first [GetLeaderEngine] on the host without a name,
    and the singleton it left behind. *)
Definition half_built : Package := (GetLeaderEngine nameless_host empty_package).2.

Definition unresolved : LeaderEngine :=
  match globalLeaderEngine half_built with
  | Some (_, le) => le
  | None => blank
  end.

(** The callback reports ["pod-a"] 600ms into the call: after the first tick
    and before the second. *)
Definition pod_a_after_600ms (k : nat) : list string :=
  match k with
  | 1 => ["pod-a"]
  | _ => []
  end.

(** The engine for ["pod-a"] at its first call of the gate, in that cluster. *)
Definition first_call : World :=
  {| engine := pod_a; runLoops := [];
     pending := interleave pod_a_after_600ms 0 (timers true) |}.

(** The same engine at a first call during which no holder is reported. *)
Definition silent_call : World :=
  {| engine := pod_a; runLoops := []; pending := timers false |}.

End sample.

(** ** Sample rates *)

Module rate_sample.

(** A histogram that keeps the samples it is given, the latest first, and
    reports their number when flushed. *)
Definition keep (s : aggregator.MetricSample) (t : float)
    (hist : list (aggregator.MetricSample * float))
    : list (aggregator.MetricSample * float) :=
  (s, t) :: hist.

Definition report (t : float) (hist : list (aggregator.MetricSample * float))
    : (list nat * option aggregator.error)
      * list (aggregator.MetricSample * float) :=
  (([length hist], None), []).

Definition fresh : aggregator.Historate (list (aggregator.MetricSample * float)) :=
  {| aggregator.histogram := [];
     aggregator.previousSample := 0%float;
     aggregator.previousTimestamp := 0%float;
     aggregator.sampled := false |}.

(** A counter read as 10 at second 1, 16 at second 3 and 17 at second 5. *)
Definition readings : list (aggregator.MetricSample * float) :=
  [({| aggregator.Value := 10%float |}, 1%float);
   ({| aggregator.Value := 16%float |}, 3%float);
   ({| aggregator.Value := 17%float |}, 5%float)].

End rate_sample.

(** ** Sample leases *)

Module lease_sample.

(** A configuration that asks for a lease of minus thirty seconds. *)
Definition negative : Env :=
  {| now := 0;
     os_Hostname := ("node-1", None);
     leader_lease_duration := -30;
     GetResourcesNamespace := "default";
     GetAPIClient := inl sample.client;
     ConfigMaps_Get := fun _ _ _ => inl sample.lease;
     election_error := None;
     json_Unmarshal := sample.decode |}.

(** A configuration that asks for [2 ^ 55] seconds, which is [5 ^ 9 * 2 ^ 64]
    nanoseconds. *)
Definition overflowing : Env :=
  {| now := 0;
     os_Hostname := ("node-1", None);
     leader_lease_duration := 2 ^ 55;
     GetResourcesNamespace := "default";
     GetAPIClient := inl sample.client;
     ConfigMaps_Get := fun _ _ _ => inl sample.lease;
     election_error := None;
     json_Unmarshal := sample.decode |}.

End lease_sample.

(** ** Holder queries *)

Lemma CurrentLeaderName_OnNewLeader (identity : string) (le : LeaderEngine) :
  CurrentLeaderName (OnNewLeader identity le) = identity.
Proof. reflexivity. Qed.

Lemma IsLeader_true_iff (le : LeaderEngine) :
  IsLeader le = true ↔ CurrentLeaderName le = HolderIdentity le.
Proof. unfold IsLeader. apply String.eqb_eq. Qed.

(** C4: for every engine state, [CurrentLeaderName] returns exactly the stored
    [currentHolderIdentity] (its result is a plain string, there is no error
    to return), and [IsLeader] is true exactly when [CurrentLeaderName]
    equals the [HolderIdentity] of the engine. *)
Theorem holder_queries (le : LeaderEngine) :
  CurrentLeaderName le = currentHolderIdentity le
  ∧ (IsLeader le = true ↔ CurrentLeaderName le = HolderIdentity le)
  ∧ (IsLeader le = false ↔ CurrentLeaderName le ≠ HolderIdentity le).
Proof.
  split; [reflexivity|]. split; [apply IsLeader_true_iff|].
  rewrite <- IsLeader_true_iff. destruct (IsLeader le); split; congruence.
Qed.

(** C10: an engine whose [HolderIdentity] is still the empty string and that
    has observed no holder yet ([currentHolderIdentity] empty as well) reports
    itself as the leader. *)
Theorem IsLeader_before_identity_resolved (le : LeaderEngine) :
  HolderIdentity le = "" →
  currentHolderIdentity le = "" →
  IsLeader le = true.
Proof.
  intros Hid Hcur. apply IsLeader_true_iff.
  unfold CurrentLeaderName. congruence.
Qed.

Lemma IsLeader_before_identity_resolved_witness :
  globalLeaderEngine sample.half_built = Some (0, sample.unresolved)
  ∧ HolderIdentity sample.unresolved = ""
  ∧ currentHolderIdentity sample.unresolved = ""
  ∧ IsLeader sample.unresolved = true.
Proof.
  split; [reflexivity|]. split; [reflexivity|]. split; [reflexivity|].
  apply (IsLeader_before_identity_resolved sample.unresolved); reflexivity.
Defined.

(** ** Initialisation *)

(** Within the range of seconds that fit a [time.Duration], the configured
    lease is that many seconds. *)
Lemma mul_Second_exact (n : Z) :
  (-9223372036 <= n <= 9223372036)%Z →
  time.mul n time.Second = (n * 1000000000)%Z.
Proof.
  intros Hn. unfold time.mul, time.wrap64, time.Second, time.Millisecond,
    time.Microsecond, time.Nanosecond.
  rewrite Z.mod_small; lia.
Qed.

Lemma resolved_lease_nonzero (env : Env) (le : LeaderEngine) :
  resolved_lease env le ≠ 0%Z.
Proof.
  unfold resolved_lease.
  destruct (config_GetInt_leader_lease_duration env =? 0)%Z;
    match goal with |- context [(?d =? 0)%Z] => destruct (Z.eqb_spec d 0) end;
    try assumption; discriminate.
Qed.

Lemma init_HolderIdentity_empty (env : Env) (le : LeaderEngine) :
  HolderIdentity le = "" →
  HolderIdentity (init env le).2 = (os_Hostname env).1
  ∧ ∀ e, (os_Hostname env).2 = Some e → (init env le).1 = Some e.
Proof.
  intros Hid. unfold_init. rewrite Hid. simpl.
  destruct (os_Hostname env) as [name [e|]]; simpl.
  { split; [reflexivity|]. intros e' [= <-]. reflexivity. }
  split; [|discriminate].
  repeat (case_match; simpl in *; simplify_eq); reflexivity.
Qed.

Lemma init_HolderIdentity_set (env : Env) (le : LeaderEngine) :
  HolderIdentity le ≠ "" →
  HolderIdentity (init env le).2 = HolderIdentity le.
Proof.
  intros Hid. unfold_init.
  destruct (String.eqb_spec (HolderIdentity le) ""); [contradiction|]. simpl.
  repeat (case_match; simpl in *; simplify_eq); reflexivity.
Qed.

Lemma init_LeaseDuration (env : Env) (le : LeaderEngine) :
  HolderIdentity le ≠ "" ∨ (os_Hostname env).2 = None →
  LeaseDuration (init env le).2 = resolved_lease env le.
Proof.
  intros Hpass. unfold_init. unfold resolved_lease.
  destruct (String.eqb_spec (HolderIdentity le) "") as [Hid|Hid];
    destruct (os_Hostname env) as [name [e|]]; simpl in *;
    try (destruct Hpass; congruence);
    repeat (case_match; simpl in *; simplify_eq); try reflexivity; try congruence.
Qed.

Lemma init_success_elector (env : Env) (le : LeaderEngine) :
  (init env le).1 = None →
  leaderElector (init env le).2 =
    Some {| electorIdentity := HolderIdentity (init env le).2;
            electorLeaseName := LeaseName le;
            electorNamespace := LeaderNamespace le;
            electorLeaseDuration := LeaseDuration (init env le).2 |}.
Proof.
  unfold_init.
  destruct (String.eqb (HolderIdentity le) "");
    destruct (os_Hostname env) as [name [e|]]; simpl;
    repeat (case_match; simpl in *; simplify_eq); try reflexivity; try discriminate.
Qed.

(** C7: an attempt resolves an empty [HolderIdentity] to what [os.Hostname]
    returns and fails with its error when the resolution fails, a set identity
    is kept; once past that step, a nonzero configured
    ["leader_lease_duration"] (in seconds) replaces the current
    [LeaseDuration], and a [LeaseDuration] that is then zero becomes the
    default of 60 seconds, so that the lease duration is never zero after the
    step and the elector of a successful attempt is never bound to a zero
    lease. *)
Theorem init_resolves_identity_and_lease (env : Env) (le : LeaderEngine) :
  (HolderIdentity le = "" →
     HolderIdentity (init env le).2 = (os_Hostname env).1
     ∧ ∀ e, (os_Hostname env).2 = Some e → (init env le).1 = Some e)
  ∧ (HolderIdentity le ≠ "" →
     HolderIdentity (init env le).2 = HolderIdentity le)
  ∧ (HolderIdentity le ≠ "" ∨ (os_Hostname env).2 = None →
     let configured := config_GetInt_leader_lease_duration env in
     let overridden :=
       if (configured =? 0)%Z then LeaseDuration le
       else time.mul configured time.Second in
     LeaseDuration (init env le).2 =
       (if (overridden =? 0)%Z then defaultLeaderLeaseDuration else overridden)
     ∧ LeaseDuration (init env le).2 ≠ 0%Z
     ∧ ((-9223372036 <= configured <= 9223372036)%Z →
        time.mul configured time.Second = (configured * 1000000000)%Z)
     ∧ ∀ elector, (init env le).1 = None →
         leaderElector (init env le).2 = Some elector →
         electorLeaseDuration elector ≠ 0%Z)
  ∧ defaultLeaderLeaseDuration = (60 * 1000000000)%Z.
Proof.
  split; [apply init_HolderIdentity_empty|].
  split; [apply init_HolderIdentity_set|].
  split; [|reflexivity].
  intros Hpass. pose proof (init_LeaseDuration env le Hpass) as Hlease.
  pose proof (resolved_lease_nonzero env le) as Hnz.
  cbv zeta. split; [exact Hlease|].
  split; [rewrite Hlease; exact Hnz|].
  split; [apply mul_Second_exact|].
  intros elector Hok Hel. rewrite (init_success_elector env le Hok) in Hel.
  injection Hel as <-. simpl. rewrite Hlease. exact Hnz.
Qed.

Lemma init_resolves_identity_and_lease_witness :
  (HolderIdentity sample.blank = ""
   ∧ (os_Hostname sample.fresh_cluster).2 = None
   ∧ HolderIdentity (init sample.fresh_cluster sample.blank).2 = "node-1"
   ∧ LeaseDuration (init sample.fresh_cluster sample.blank).2 = 60000000000%Z)
  ∧ (HolderIdentity (set_LeaseDuration 0 sample.pod_a) ≠ ""
     ∧ HolderIdentity (init sample.forbidden_cluster (set_LeaseDuration 0 sample.pod_a)).2
       = "pod-a"
     ∧ LeaseDuration (init sample.forbidden_cluster (set_LeaseDuration 0 sample.pod_a)).2
       = 15000000000%Z).
Proof.
  split.
  - destruct (init_resolves_identity_and_lease sample.fresh_cluster sample.blank)
      as (Hname & _ & Hlease & _).
    split; [reflexivity|]. split; [reflexivity|]. split.
    + exact (proj1 (Hname eq_refl)).
    + exact (proj1 (Hlease (or_intror eq_refl))).
  - destruct (init_resolves_identity_and_lease sample.forbidden_cluster
                (set_LeaseDuration 0 sample.pod_a)) as (_ & Hkeep & Hlease & _).
    assert (Hset : HolderIdentity (set_LeaseDuration 0 sample.pod_a) ≠ "")
      by discriminate.
    split; [exact Hset|]. split.
    + exact (Hkeep Hset).
    + exact (proj1 (Hlease (or_introl Hset))).
Defined.

(** C8: in an attempt that reaches the probe of the coordination record, a
    probe error that is not "not found" ends the attempt with that error and
    no election state machine is constructed; a "not found" error is
    tolerated: the attempt goes on to construct the election state machine,
    bound to the resolved identity and lease, and its outcome is the outcome
    of that construction. *)
Theorem init_probe_tolerates_not_found
    (env : Env) (le : LeaderEngine) (client : APIClient) (e : error) :
  HolderIdentity le ≠ "" ∨ (os_Hostname env).2 = None →
  GetAPIClient env = inl client →
  ConfigMaps_Get env (Client client) (LeaderNamespace le) defaultLeaseName = inr e →
  (errors.IsNotFound e = false →
     (init env le).1 = Some e
     ∧ leaderElector (init env le).2 = leaderElector le)
  ∧ (errors.IsNotFound e = true →
     (init env le).1 = election_error env
     ∧ (election_error env = None →
        leaderElector (init env le).2 =
          Some {| electorIdentity := HolderIdentity (init env le).2;
                  electorLeaseName := LeaseName le;
                  electorNamespace := LeaderNamespace le;
                  electorLeaseDuration := LeaseDuration (init env le).2 |})
     ∧ (election_error env ≠ None → leaderElector (init env le).2 = None)).
Proof.
  intros Hpass Hclient Hprobe.
  unfold_init. rewrite Hclient.
  destruct (String.eqb_spec (HolderIdentity le) "") as [Hid|Hid];
    destruct (os_Hostname env) as [name [e0|]]; simpl in *;
    try (destruct Hpass; congruence);
    repeat (match goal with
            | |- context [(?a =? ?b)%Z] => destruct (a =? b)%Z; simpl
            end);
    rewrite Hprobe; simpl;
    (split; intros ->; simpl;
     [ split; reflexivity
     | destruct (election_error env); simpl;
       (split; [reflexivity|split; [intros; (reflexivity || discriminate)
                                   |intros; (reflexivity || congruence)]]) ]).
Qed.

Lemma init_probe_tolerates_not_found_witness :
  (errors.IsNotFound (StatusError StatusReasonNotFound "configmaps not found") = true
   ∧ (init sample.fresh_cluster sample.blank).1 = None)
  ∧ (errors.IsNotFound (StatusError StatusReasonForbidden "configmaps is forbidden") = false
     ∧ (init sample.forbidden_cluster sample.blank).1
       = Some (StatusError StatusReasonForbidden "configmaps is forbidden")).
Proof.
  split.
  - split; [reflexivity|].
    apply (init_probe_tolerates_not_found sample.fresh_cluster sample.blank
             sample.client _ (or_intror eq_refl) eq_refl eq_refl).
    reflexivity.
  - split; [reflexivity|].
    apply (init_probe_tolerates_not_found sample.forbidden_cluster sample.blank
             sample.client _ (or_intror eq_refl) eq_refl eq_refl).
    reflexivity.
Defined.

(** ** The singleton accessor *)

Lemma initRetry_TriggerRetry_nil_iff (env : Env) (le : LeaderEngine) :
  (initRetry_TriggerRetry env le).1 = None
  ↔ retry.status (initRetry (initRetry_TriggerRetry env le).2) = retry.OK.
Proof.
  unfold initRetry_TriggerRetry, retry.TriggerRetry.
  destruct (retry.status (initRetry le)) eqn:Hst;
    destruct (retry.cfg (initRetry le)) as [c|]; simpl.
  all: try (rewrite Hst; split; discriminate).
  all: try (split; [intros _; assumption|reflexivity]).
  all: destruct (now env <? retry.nextTry (initRetry le))%Z; simpl;
    [rewrite Hst; split; discriminate|].
  all: destruct (init env le) as [err le']; simpl; unfold retry.LastError;
    destruct (retry.status (retry.record_try (now env) c err (initRetry le')));
    split; (reflexivity || discriminate).
Qed.

Lemma GetCustomLeaderEngine_unfold (env : Env) (id : string) (ttl : Z) (p : Package) :
  GetCustomLeaderEngine env id ttl p =
    let t := initRetry_TriggerRetry env (singleton env id ttl p) in
    let addr := match globalLeaderEngine p with
                | Some (addr, _) => addr
                | None => allocated p
                end in
    let count := match globalLeaderEngine p with
                 | Some _ => allocated p
                 | None => S (allocated p)
                 end in
    ((match t.1 with Some _ => None | None => Some addr end, t.1),
     {| allocated := count; globalLeaderEngine := Some (addr, t.2) |}).
Proof.
  unfold GetCustomLeaderEngine, singleton.
  destruct (globalLeaderEngine p) as [[addr le]|]; simpl;
    match goal with
    | |- context [initRetry_TriggerRetry env ?x] =>
        destruct (initRetry_TriggerRetry env x) as [[e|] le']
    end; reflexivity.
Qed.

(** C5: the accessor returns a non-nil engine, the singleton, exactly when the
    retried initialisation has succeeded, that is when the trigger returns no
    error and the retrier of the singleton holds the success; whenever the
    trigger returns an error the accessor returns nil with that very error.
    [GetLeaderEngine] is the accessor at the empty identity and the default
    lease. *)
Theorem accessor_engine_iff_initialised
    (env : Env) (holderIdentity : string) (ttl : Z) (p : Package) :
  let r := GetCustomLeaderEngine env holderIdentity ttl p in
  let t := initRetry_TriggerRetry env (singleton env holderIdentity ttl p) in
  (∃ addr, globalLeaderEngine r.2 = Some (addr, t.2)
     ∧ (is_Some r.1.1 ↔ retry.status (initRetry t.2) = retry.OK)
     ∧ (is_Some r.1.1 → r.1 = (Some addr, None)))
  ∧ (is_Some r.1.1 ↔ t.1 = None)
  ∧ (∀ e, t.1 = Some e → r.1 = (None, Some e))
  ∧ GetLeaderEngine env p = GetCustomLeaderEngine env "" defaultLeaderLeaseDuration p.
Proof.
  cbv zeta. rewrite GetCustomLeaderEngine_unfold. cbv zeta. simpl.
  pose proof (initRetry_TriggerRetry_nil_iff env
                (singleton env holderIdentity ttl p)) as Hiff.
  destruct (initRetry_TriggerRetry env (singleton env holderIdentity ttl p))
    as [[e|] le'] eqn:Ht; simpl in *.
  - split.
    { eexists. split; [reflexivity|]. split.
      - rewrite <- Hiff. split; [intros [? ?]; discriminate|discriminate].
      - intros [? ?]; discriminate. }
    split; [split; [intros [? ?]; discriminate|discriminate]|].
    split; [|reflexivity]. intros e' [= <-]. reflexivity.
  - split.
    { eexists. split; [reflexivity|]. split.
      - rewrite <- Hiff. split; [reflexivity|intros _; eexists; reflexivity].
      - intros _. reflexivity. }
    split; [split; [reflexivity|intros _; eexists; reflexivity]|].
    split; [|reflexivity]. discriminate.
Qed.

Lemma accessor_engine_iff_initialised_witness :
  (GetLeaderEngine sample.fresh_cluster sample.empty_package).1 = (Some 0, None)
  ∧ (GetLeaderEngine sample.nameless_host sample.empty_package).1
    = (None, Some (RetryError "attempt failed, will retry"
                     (Some (ErrorString "hostname: no such device")))).
Proof.
  split.
  - destruct (accessor_engine_iff_initialised sample.fresh_cluster ""
                defaultLeaderLeaseDuration sample.empty_package)
      as ((addr & Hglobal & _ & Hsome) & _).
    assert (addr = 0) as -> by (vm_compute in Hglobal; congruence).
    apply Hsome. eexists. reflexivity.
  - destruct (accessor_engine_iff_initialised sample.nameless_host ""
                defaultLeaderLeaseDuration sample.empty_package)
      as (_ & _ & Herr & _).
    apply Herr. reflexivity.
Defined.

(** An engine whose first initialisation failed exists as the singleton; a
    later call with other arguments, made once the retry delay has passed,
    runs the initialisation again: the identity of the singleton changes (to
    the host name, not to the argument), and so do its client and elector.
    While the delay has not passed the call returns nil and not the
    singleton. *)
Lemma subsequent_call_changes_engine :
  globalLeaderEngine sample.half_built = Some (0, sample.unresolved)
  ∧ HolderIdentity sample.unresolved = ""
  ∧ leaderElector sample.unresolved = None
  ∧ (∃ le',
       globalLeaderEngine
         (GetCustomLeaderEngine sample.settled_cluster "pod-b" (5 * time.Second)
            sample.half_built).2 = Some (0, le')
       ∧ HolderIdentity le' = "node-1"
       ∧ leaderElector le' ≠ None
       ∧ le' ≠ sample.unresolved)
  ∧ (GetCustomLeaderEngine sample.nameless_host "pod-b" (5 * time.Second)
       sample.half_built).1.1 = None.
Proof.
  split; [reflexivity|]. split; [reflexivity|]. split; [reflexivity|].
  split; [|reflexivity].
  vm_compute. eexists. split; [reflexivity|].
  split; [reflexivity|]. split; discriminate.
Qed.

(** C6 (amended): once the singleton exists, a call of the accessor never
    uses its identity and ttl arguments: whatever they are, the call does what
    triggering the retrier of the singleton does, it keeps the singleton at
    its address, returns the trigger's error, and returns that address when
    the trigger reports no error; when the initialisation has already
    succeeded, every field of the engine is left as it is and the same
    instance is returned. *)
Theorem subsequent_call_ignores_arguments
    (env : Env) (holderIdentity : string) (ttl : Z) (p : Package)
    (addr : nat) (le : LeaderEngine) :
  globalLeaderEngine p = Some (addr, le) →
  let r := GetCustomLeaderEngine env holderIdentity ttl p in
  let t := initRetry_TriggerRetry env le in
  (∀ holderIdentity' ttl', GetCustomLeaderEngine env holderIdentity' ttl' p = r)
  ∧ r.2 = {| allocated := allocated p; globalLeaderEngine := Some (addr, t.2) |}
  ∧ r.1.2 = t.1
  ∧ (t.1 = None → r.1.1 = Some addr)
  ∧ (retry.status (initRetry le) = retry.OK → r = ((Some addr, None), p)).
Proof.
  intros Hglobal. cbv zeta.
  assert (Hsame : ∀ id' ttl', singleton env id' ttl' p = le)
    by (intros; unfold singleton; rewrite Hglobal; reflexivity).
  split.
  { intros id' ttl'. rewrite !GetCustomLeaderEngine_unfold, !Hsame. reflexivity. }
  rewrite GetCustomLeaderEngine_unfold, Hsame, Hglobal. cbv zeta. simpl.
  split; [reflexivity|]. split; [reflexivity|].
  split; [intros ->; reflexivity|].
  intros Hok. unfold initRetry_TriggerRetry, retry.TriggerRetry. rewrite Hok.
  simpl. destruct p as [n g]. simpl in *. rewrite Hglobal. reflexivity.
Qed.

Lemma subsequent_call_ignores_arguments_witness :
  globalLeaderEngine sample.installed = Some (0, sample.initialised)
  ∧ retry.status (initRetry sample.initialised) = retry.OK
  ∧ GetCustomLeaderEngine sample.settled_cluster "pod-b" (5 * time.Second)
      sample.installed
    = ((Some 0, None), sample.installed).
Proof.
  assert (Hglobal : globalLeaderEngine sample.installed
                    = Some (0, sample.initialised)) by reflexivity.
  split; [exact Hglobal|]. split; [reflexivity|].
  apply (subsequent_call_ignores_arguments sample.settled_cluster "pod-b"
           (5 * time.Second) _ _ _ Hglobal).
  reflexivity.
Defined.

(** ** The readiness gate *)

Lemma set_once_fired (le : LeaderEngine) : once le = true → set_once true le = le.
Proof. destruct le; simpl; intros ->; reflexivity. Qed.

Lemma set_currentHolderIdentity_same (le : LeaderEngine) :
  set_currentHolderIdentity (currentHolderIdentity le) le = le.
Proof. destruct le; reflexivity. Qed.

Lemma engine_once_Do (w : World) :
  engine (once_Do go_Run w) = set_once true (engine w).
Proof.
  unfold once_Do. destruct (once (engine w)) eqn:Hon; simpl; [|reflexivity].
  symmetry. apply set_once_fired, Hon.
Qed.

Lemma runLoops_once_Do (w : World) :
  runLoops (once_Do go_Run w) = (runLoops w ++ launch (engine w))%list.
Proof.
  unfold once_Do, launch. destruct (once (engine w)); simpl; [|reflexivity].
  symmetry. apply app_nil_r.
Qed.

Lemma pending_once_Do (w : World) : pending (once_Do go_Run w) = pending w.
Proof. unfold once_Do. destruct (once (engine w)); reflexivity. Qed.

Lemma apply_writes_app (pre rest : list event) (le : LeaderEngine) :
  apply_writes (pre ++ rest) le = apply_writes rest (apply_writes pre le).
Proof.
  revert le. induction pre as [|[identity|t|t] pre IH]; intros le; simpl; auto.
Qed.

Lemma apply_writes_set_once (b : bool) (evs : list event) (le : LeaderEngine) :
  apply_writes evs (set_once b le) = set_once b (apply_writes evs le).
Proof.
  revert le. induction evs as [|[identity|t|t] evs IH]; intros le; simpl; auto.
  apply (IH (OnNewLeader identity le)).
Qed.

Lemma unanswered_set_once (b : bool) (evs : list event) (le : LeaderEngine) :
  unanswered evs (set_once b le) = unanswered evs le.
Proof.
  revert le. induction evs as [|[identity|t|t] evs IH]; intros le; simpl; auto.
  - apply (IH (OnNewLeader identity le)).
  - rewrite IH. reflexivity.
Qed.

(** The fields the loop and the callback leave alone. *)
Lemma apply_writes_frame (evs : list event) (le : LeaderEngine) :
  apply_writes evs le
  = set_currentHolderIdentity (currentHolderIdentity (apply_writes evs le)) le.
Proof.
  revert le. induction evs as [|[identity|t|t] evs IH]; intros le; simpl; auto.
  - symmetry. apply set_currentHolderIdentity_same.
  - rewrite (IH (OnNewLeader identity le)) at 1. reflexivity.
Qed.

Lemma unanswered_no_timeout (evs : list event) (le : LeaderEngine) (t : Z) :
  unanswered evs le = true → Timeout t ∉ evs.
Proof.
  revert le. induction evs as [|[identity|t'|t'] evs IH]; intros le; simpl.
  - intros _ Hin. inversion Hin.
  - intros H Hin. inversion Hin; subst. eapply IH; eauto.
  - intros [_ H]%andb_prop Hin. inversion Hin; subst. eapply IH; eauto.
  - discriminate.
Qed.

(** The loop skips the events that leave it waiting. *)
Lemma poll_unanswered (pre rest : list event) (le : LeaderEngine) :
  unanswered pre le = true →
  poll (pre ++ rest) le = poll rest (apply_writes pre le).
Proof.
  revert le. induction pre as [|[identity|t|t] pre IH]; intros le; simpl.
  - reflexivity.
  - apply IH.
  - intros [Hempty H]%andb_prop. rewrite Hempty. simpl. apply IH, H.
  - discriminate.
Qed.

(** The loop returns at the first delivery that answers it: a tick that finds
    a holder, or the timeout. *)
Lemma poll_returns (evs : list event) (le : LeaderEngine)
    (r : option error) (le' : LeaderEngine) (rest : list event) :
  poll evs le = (Some r, le', rest) →
  ∃ pre d, evs = (pre ++ d :: rest)%list ∧ unanswered pre le = true
    ∧ ((∃ t, d = Tick t) ∧ r = None
         ∧ CurrentLeaderName (apply_writes pre le) ≠ ""
         ∧ le' = set_running true (apply_writes pre le)
       ∨ (∃ t, d = Timeout t) ∧ r = Some timeoutError
         ∧ le' = apply_writes pre le).
Proof.
  revert le. induction evs as [|[identity|t|t] evs IH]; intros le; simpl.
  - discriminate.
  - intros H. destruct (IH _ H) as (pre & d & -> & Hun & Hcase).
    exists (NewLeader identity :: pre), d. simpl. auto.
  - destruct (String.eqb_spec (CurrentLeaderName le) "") as [Hempty|Hholder]; simpl.
    + intros H. destruct (IH _ H) as (pre & d & -> & Hun & Hcase).
      exists (Tick t :: pre), d. simpl.
      rewrite Hempty, Hun. simpl. auto.
    + intros [= <- <- <-]. exists [], (Tick t). simpl.
      split; [reflexivity|]. split; [reflexivity|]. left. eauto.
  - intros [= <- <- <-]. exists [], (Timeout t). simpl.
    split; [reflexivity|]. split; [reflexivity|]. right. eauto.
Qed.

Lemma poll_waiting (evs : list event) (le le' : LeaderEngine) (rest : list event) :
  poll evs le = (None, le', rest) →
  unanswered evs le = true ∧ le' = apply_writes evs le ∧ rest = [].
Proof.
  revert le. induction evs as [|[identity|t|t] evs IH]; intros le; simpl.
  - intros [= <- <-]. auto.
  - apply IH.
  - destruct (String.eqb (CurrentLeaderName le) ""); simpl; [apply IH|discriminate].
  - discriminate.
Qed.

(** With the timeout among the events the loop returns. *)
Lemma poll_total (evs : list event) (le : LeaderEngine) (t : Z) :
  Timeout t ∈ evs → ∃ r le' rest, poll evs le = (Some r, le', rest).
Proof.
  intros Hin. destruct (poll evs le) as [[[r|] le'] rest] eqn:Hpoll; [eauto|].
  apply poll_waiting in Hpoll as (Hun & _).
  destruct (unanswered_no_timeout _ _ t Hun Hin).
Qed.

Lemma EnsureLeaderElectionRuns_fast (w : World) :
  running (engine w) = true → EnsureLeaderElectionRuns w = (Some None, w).
Proof. unfold EnsureLeaderElectionRuns. intros ->. reflexivity. Qed.

Lemma EnsureLeaderElectionRuns_slow (w : World) :
  running (engine w) = false →
  EnsureLeaderElectionRuns w =
    let '(r, le, rest) := poll (pending w) (set_once true (engine w)) in
    (r, {| engine := le;
           runLoops := (runLoops w ++ launch (engine w))%list;
           pending := rest |}).
Proof.
  unfold EnsureLeaderElectionRuns. intros ->.
  rewrite engine_once_Do, runLoops_once_Do, pending_once_Do. reflexivity.
Qed.

Lemma poll_keeps (evs : list event) (le : LeaderEngine) :
  once (poll evs le).1.2 = once le
  ∧ leaderElector (poll evs le).1.2 = leaderElector le.
Proof.
  revert le. induction evs as [|[identity|t|t] evs IH]; intros le; simpl; auto.
  - apply (IH (OnNewLeader identity le)).
  - destruct (String.eqb (CurrentLeaderName le) ""); simpl; auto.
Qed.

Lemma EnsureLeaderElectionRuns_runLoops (w : World) :
  runLoops (EnsureLeaderElectionRuns w).2 =
    (runLoops w ++ (if running (engine w) then [] else launch (engine w)))%list.
Proof.
  destruct (running (engine w)) eqn:Hrun.
  - rewrite EnsureLeaderElectionRuns_fast by assumption. simpl.
    symmetry. apply app_nil_r.
  - rewrite EnsureLeaderElectionRuns_slow by assumption.
    destruct (poll _ _) as [[r le'] rest]. reflexivity.
Qed.

Lemma EnsureLeaderElectionRuns_fires (w : World) :
  running (engine w) = false →
  once (engine (EnsureLeaderElectionRuns w).2) = true
  ∧ leaderElector (engine (EnsureLeaderElectionRuns w).2) = leaderElector (engine w).
Proof.
  intros Hrun. rewrite EnsureLeaderElectionRuns_slow by assumption.
  pose proof (poll_keeps (pending w) (set_once true (engine w))) as [Hon Hel].
  destruct (poll _ _) as [[r le'] rest]. simpl in *. auto.
Qed.

Lemma launched_once_step (le : LeaderEngine) (s : step) (w : World) :
  launched_once le w → launched_once le (do_step s w).
Proof.
  intros [Hel Hinv]. destruct s as [during|identity]; simpl; [|split; assumption].
  set (w0 := {| engine := engine w; runLoops := runLoops w; pending := during |}).
  pose proof (EnsureLeaderElectionRuns_runLoops w0) as Hloops.
  destruct (running (engine w0)) eqn:Hrun.
  - rewrite EnsureLeaderElectionRuns_fast by assumption. split; assumption.
  - destruct (EnsureLeaderElectionRuns_fires w0 Hrun) as [Hon Hel'].
    unfold launch in Hloops. simpl in Hloops, Hel'.
    split; [congruence|].
    destruct Hinv as [[Honce Hnil]|(Hfalse & Hfired & Hone)].
    + rewrite Hnil in Hloops. destruct (once (engine w)) eqn:Hw.
      * left. split; [congruence|assumption].
      * right. split; [congruence|]. split; [assumption|]. simpl in Hloops.
        congruence.
    + rewrite Hfired, Hone in Hloops. right. auto.
Qed.

Lemma launched_once_steps (le : LeaderEngine) (ss : list step) (w : World) :
  launched_once le w → launched_once le (do_steps ss w).
Proof.
  revert w. induction ss as [|s ss IH]; intros w Hinv; simpl; [assumption|].
  apply IH, launched_once_step, Hinv.
Qed.

(** C1: over any sequence of calls of [EnsureLeaderElectionRuns] on one
    engine, with callbacks in between and whatever each call returns (a
    timeout included), at most one run loop is started; a call adds a run
    loop only if it takes the slow path with the guard not yet fired, and it
    leaves the guard fired, so that no later call adds another. *)
Theorem run_loop_launched_at_most_once (le : LeaderEngine) (ss : list step) :
  let w := do_steps ss {| engine := le; runLoops := []; pending := [] |} in
  (length (runLoops w) ≤ 1)%nat
  ∧ (runLoops w = []
     ∨ once le = false ∧ once (engine w) = true ∧ runLoops w = [leaderElector le])
  ∧ (∀ w0 : World,
       runLoops (EnsureLeaderElectionRuns w0).2 =
         (runLoops w0
          ++ (if running (engine w0) || once (engine w0) then []
              else [leaderElector (engine w0)]))%list
       ∧ (running (engine w0) = false →
          once (engine (EnsureLeaderElectionRuns w0).2) = true)).
Proof.
  cbv zeta.
  assert (Hinv : launched_once le
                   (do_steps ss {| engine := le; runLoops := []; pending := [] |})).
  { apply launched_once_steps. split; [reflexivity|]. left. auto. }
  destruct Hinv as [_ Hinv]. split; [|split].
  - destruct Hinv as [[_ ->]|(_ & _ & ->)]; simpl; lia.
  - destruct Hinv as [[_ ->]|?]; auto.
  - intros w0. split.
    + rewrite EnsureLeaderElectionRuns_runLoops. unfold launch.
      destruct (running (engine w0)), (once (engine w0)); reflexivity.
    + intros Hrun. apply EnsureLeaderElectionRuns_fires, Hrun.
Qed.

Lemma run_loop_launched_at_most_once_witness :
  running sample.initialised = false
  ∧ once sample.initialised = false
  ∧ runLoops
      (do_steps [Call (timers false); Call (timers true);
                 Callback "pod-a"; Call (timers false); Call []]
         {| engine := sample.initialised; runLoops := []; pending := [] |})
    = [leaderElector sample.initialised]
  ∧ once
      (engine
         (EnsureLeaderElectionRuns
            {| engine := sample.initialised; runLoops := [];
               pending := timers false |}).2) = true.
Proof.
  split; [reflexivity|]. split; [reflexivity|].
  destruct (run_loop_launched_at_most_once sample.initialised
              [Call (timers false); Call (timers true);
               Callback "pod-a"; Call (timers false); Call []])
    as (_ & [Hnone|(_ & _ & Hone)] & Hcall).
  - vm_compute in Hnone. discriminate Hnone.
  - split; [exact Hone|].
    apply (Hcall {| engine := sample.initialised; runLoops := [];
                    pending := timers false |}).
    reflexivity.
Defined.

(** *** The timers *)

Lemma timers_unfold (tick_first : bool) :
  timers tick_first =
    (ticker tickPeriod (if tick_first then 8 else 7) ++ [Timeout timeoutDuration])%list.
Proof. destruct tick_first; reflexivity. Qed.

Lemma Tick_in_ticker (period : Z) (n : nat) (t : Z) :
  Tick t ∈ ticker period n
  ↔ ∃ k : Z, (1 <= k <= Z.of_nat n)%Z ∧ t = (k * period)%Z.
Proof.
  unfold ticker. rewrite list_elem_of_In, in_map_iff. split.
  - intros (k & [= <-] & Hk%in_seq). exists (Z.of_nat k). split; [lia|reflexivity].
  - intros (k & Hk & ->). exists (Z.to_nat k). split.
    + rewrite Z2Nat.id by lia. reflexivity.
    + apply in_seq. lia.
Qed.

Lemma Timeout_not_in_ticker (period : Z) (n : nat) (t : Z) :
  Timeout t ∉ ticker period n.
Proof.
  unfold ticker. rewrite list_elem_of_In, in_map_iff.
  intros (k & Hk & _). discriminate.
Qed.

(** The callback writes add no delivery of the timers. *)
Lemma delivery_in_interleave (writes : nat → list string) (k : nat)
    (deliveries : list event) (d : event) :
  (∀ identity, d ≠ NewLeader identity) →
  d ∈ interleave writes k deliveries ↔ d ∈ deliveries.
Proof.
  intros Hd. revert k.
  induction deliveries as [|d' ds IH]; intros k; simpl; [reflexivity|].
  rewrite elem_of_app, !elem_of_cons, IH.
  split; [|tauto]. intros [Hin|H]; [|exact H].
  apply list_elem_of_In, in_map_iff in Hin as (identity & <- & _).
  destruct (Hd identity eq_refl).
Qed.

Lemma timers_deliveries (writes : nat → list string) (tick_first : bool) :
  (∀ t, Tick t ∈ interleave writes 0 (timers tick_first)
        ↔ ∃ k : Z, (1 <= k <= (if tick_first then 8 else 7))%Z
                   ∧ t = (k * tickPeriod)%Z)
  ∧ (∀ t, Timeout t ∈ interleave writes 0 (timers tick_first)
          ↔ t = timeoutDuration).
Proof.
  split; intros t; rewrite delivery_in_interleave by discriminate;
    rewrite timers_unfold, elem_of_app, list_elem_of_singleton.
  - rewrite Tick_in_ticker. split.
    + intros [(k & Hk & ->)|[=]]. exists k. destruct tick_first; split; (lia || reflexivity).
    + intros (k & Hk & ->). left. exists k. destruct tick_first; split; (lia || reflexivity).
  - split.
    + intros [Hin|[= ->]]; [|reflexivity]. destruct (Timeout_not_in_ticker _ _ _ Hin).
    + intros ->. right. reflexivity.
Qed.

(** C2: the gate returns nil in exactly two cases.  With [running] set it
    returns nil at once and leaves the world as it is: no run loop started, no
    event consumed.  Otherwise it returns nil exactly when, before any
    timeout is delivered, a tick finds [currentHolderIdentity] non-empty, all
    earlier ticks having found it empty; it returns at that tick, with
    [running] set.  The ticks come every 500ms, the timeout after
    [2 * clientTimeout], which is 4 seconds, so that at most 8 ticks are
    polled, and with these timers the call always returns. *)
Theorem EnsureLeaderElectionRuns_nil_cases (w : World) :
  (running (engine w) = true → EnsureLeaderElectionRuns w = (Some None, w))
  ∧ (running (engine w) = false →
     ∀ w', EnsureLeaderElectionRuns w = (Some None, w') ↔
       ∃ pre t rest,
         pending w = (pre ++ Tick t :: rest)%list
         ∧ unanswered pre (engine w) = true
         ∧ CurrentLeaderName (apply_writes pre (engine w)) ≠ ""
         ∧ w' = {| engine :=
                     set_running true (set_once true (apply_writes pre (engine w)));
                   runLoops := (runLoops w ++ launch (engine w))%list;
                   pending := rest |})
  ∧ (clientTimeout = (2 * time.Second)%Z
     ∧ timeoutDuration = (2 * clientTimeout)%Z
     ∧ timeoutDuration = (4 * time.Second)%Z
     ∧ tickPeriod = (500 * time.Millisecond)%Z)
  ∧ (∀ (writes : nat → list string) (tick_first : bool),
       pending w = interleave writes 0 (timers tick_first) →
       (∃ r w', EnsureLeaderElectionRuns w = (Some r, w'))
       ∧ (∀ t, Tick t ∈ pending w
               ↔ ∃ k : Z, (1 <= k <= (if tick_first then 8 else 7))%Z
                          ∧ t = (k * tickPeriod)%Z)
       ∧ (∀ t, Tick t ∈ pending w → (t <= timeoutDuration)%Z)
       ∧ (∀ t, Timeout t ∈ pending w ↔ t = timeoutDuration)).
Proof.
  split; [apply EnsureLeaderElectionRuns_fast|].
  split; [|split; [repeat split; reflexivity|]].
  - intros Hrun w'. rewrite EnsureLeaderElectionRuns_slow by assumption. split.
    + destruct (poll _ _) as [[r le'] rest] eqn:Hpoll. intros [= -> <-].
      apply poll_returns in Hpoll
        as (pre & d & Hpending & Hun & [((t & ->) & _ & Hholder & ->)|(_ & [=] & _)]).
      rewrite unanswered_set_once in Hun.
      rewrite apply_writes_set_once in Hholder |- *.
      exists pre, t, rest. auto.
    + intros (pre & t & rest & -> & Hun & Hholder & ->).
      rewrite poll_unanswered by (rewrite unanswered_set_once; exact Hun).
      rewrite apply_writes_set_once. simpl.
      destruct (String.eqb_spec
                  (currentHolderIdentity (apply_writes pre (engine w))) "")
        as [Hempty|_]; [destruct (Hholder Hempty)|reflexivity].
  - intros writes tick_first Hpending.
    destruct (timers_deliveries writes tick_first) as [Hticks Htimeout].
    rewrite Hpending. split; [|split; [exact Hticks|split; [|exact Htimeout]]].
    + destruct (running (engine w)) eqn:Hrun.
      * rewrite EnsureLeaderElectionRuns_fast by assumption. eauto.
      * rewrite EnsureLeaderElectionRuns_slow by assumption. rewrite Hpending.
        destruct (poll_total (interleave writes 0 (timers tick_first))
                    (set_once true (engine w)) timeoutDuration)
          as (r & le' & rest & ->); [apply Htimeout; reflexivity|eauto].
    + intros t (k & Hk & ->)%Hticks.
      change timeoutDuration with (8 * tickPeriod)%Z.
      assert (0 < tickPeriod)%Z by reflexivity.
      destruct tick_first; nia.
Qed.

Lemma EnsureLeaderElectionRuns_nil_cases_witness :
  (running (set_running true sample.pod_a) = true
   ∧ EnsureLeaderElectionRuns
       {| engine := set_running true sample.pod_a; runLoops := [];
          pending := timers true |}
     = (Some None,
        {| engine := set_running true sample.pod_a; runLoops := [];
           pending := timers true |}))
  ∧ (running (engine sample.first_call) = false
     ∧ (EnsureLeaderElectionRuns sample.first_call).1 = Some None
     ∧ running (engine (EnsureLeaderElectionRuns sample.first_call).2) = true
     ∧ CurrentLeaderName (engine (EnsureLeaderElectionRuns sample.first_call).2)
       = "pod-a"
     ∧ IsLeader (engine (EnsureLeaderElectionRuns sample.first_call).2) = true
     ∧ head (pending (EnsureLeaderElectionRuns sample.first_call).2)
       = Some (Tick (3 * tickPeriod))).
Proof.
  split.
  - split; [reflexivity|].
    exact (proj1 (EnsureLeaderElectionRuns_nil_cases
                    {| engine := set_running true sample.pod_a; runLoops := [];
                       pending := timers true |}) eq_refl).
  - split; [reflexivity|].
    destruct (EnsureLeaderElectionRuns_nil_cases sample.first_call)
      as (_ & Hslow & _).
    assert (Hnil : ∃ w', EnsureLeaderElectionRuns sample.first_call = (Some None, w')).
    { eexists. apply (Hslow eq_refl).
      exists [Tick tickPeriod; NewLeader "pod-a"], (2 * tickPeriod)%Z,
        (tail (tail (timers true))).
      split; [reflexivity|]. split; [reflexivity|].
      split; [discriminate|reflexivity]. }
    destruct Hnil as [w' Hnil]. rewrite Hnil. simpl.
    vm_compute in Hnil. injection Hnil as <-. vm_compute.
    repeat split; reflexivity.
Defined.

Lemma quiet_unanswered (evs : list event) (le : LeaderEngine) :
  currentHolderIdentity le = "" →
  quiet evs = true →
  unanswered evs le = true ∧ apply_writes evs le = le.
Proof.
  intros Hempty. induction evs as [|[identity|t|t] evs IH]; simpl.
  - auto.
  - intros [->%String.eqb_eq Hq]%andb_prop.
    unfold OnNewLeader. rewrite <- Hempty, set_currentHolderIdentity_same. auto.
  - intros Hq. unfold CurrentLeaderName. rewrite Hempty. simpl. auto.
  - discriminate.
Qed.

(** A first call that times out comes back with the run-once guard fired and
    the run loop started: the engine is not what it was. *)
Lemma timeout_fires_guard :
  currentHolderIdentity (engine sample.silent_call) = ""
  ∧ quiet (ticker tickPeriod 7) = true
  ∧ pending sample.silent_call
    = (ticker tickPeriod 7 ++ [Timeout timeoutDuration])%list
  ∧ (EnsureLeaderElectionRuns sample.silent_call).1 = Some (Some timeoutError)
  ∧ engine (EnsureLeaderElectionRuns sample.silent_call).2
    ≠ engine sample.silent_call
  ∧ once (engine sample.silent_call) = false
  ∧ once (engine (EnsureLeaderElectionRuns sample.silent_call).2) = true
  ∧ runLoops (EnsureLeaderElectionRuns sample.silent_call).2
    = [leaderElector sample.pod_a].
Proof.
  split; [reflexivity|]. split; [reflexivity|]. split; [reflexivity|].
  split; [reflexivity|]. split; [|repeat split; reflexivity].
  intros Heq. apply (f_equal once) in Heq. vm_compute in Heq. discriminate Heq.
Qed.

(** C3 (amended): when no holder identity appears before the timeout is
    delivered, the gate returns the timeout error and leaves every field of
    the engine as it was except the run-once guard, which is fired from then
    on (the call has started the run loop if no earlier call had); [running]
    stays false, and a subsequent call takes the slow path again, polling
    anew without starting another loop. *)
Theorem timeout_keeps_engine_but_guard
    (w : World) (pre : list event) (t : Z) (rest : list event) :
  running (engine w) = false →
  currentHolderIdentity (engine w) = "" →
  pending w = (pre ++ Timeout t :: rest)%list →
  quiet pre = true →
  let w' := {| engine := set_once true (engine w);
               runLoops := (runLoops w ++ launch (engine w))%list;
               pending := rest |} in
  EnsureLeaderElectionRuns w = (Some (Some timeoutError), w')
  ∧ running (engine w') = false
  ∧ (once (engine w) = true → engine w' = engine w ∧ runLoops w' = runLoops w)
  ∧ (∀ evs,
       EnsureLeaderElectionRuns
         {| engine := engine w'; runLoops := runLoops w'; pending := evs |}
       = (let '(r, le, rest') := poll evs (engine w') in
          (r, {| engine := le; runLoops := runLoops w'; pending := rest' |}))).
Proof.
  intros Hrun Hempty Hpending Hquiet. cbv zeta. simpl.
  destruct (quiet_unanswered pre (set_once true (engine w)) Hempty Hquiet)
    as [Hun Hsame].
  split; [|split; [exact Hrun|split]].
  - rewrite EnsureLeaderElectionRuns_slow by assumption.
    rewrite Hpending, (poll_unanswered _ _ _ Hun), Hsame. reflexivity.
  - intros Hon. unfold launch. rewrite Hon, app_nil_r.
    split; [apply set_once_fired, Hon|reflexivity].
  - intros evs. rewrite EnsureLeaderElectionRuns_slow by exact Hrun. simpl.
    unfold launch at 2. simpl. rewrite app_nil_r. reflexivity.
Qed.

Lemma timeout_keeps_engine_but_guard_witness :
  running (engine sample.silent_call) = false
  ∧ currentHolderIdentity (engine sample.silent_call) = ""
  ∧ pending sample.silent_call
    = (ticker tickPeriod 7 ++ Timeout timeoutDuration :: [])%list
  ∧ quiet (ticker tickPeriod 7) = true
  ∧ EnsureLeaderElectionRuns sample.silent_call
    = (Some (Some timeoutError),
       {| engine := set_once true sample.pod_a;
          runLoops := [leaderElector sample.pod_a];
          pending := [] |}).
Proof.
  split; [reflexivity|]. split; [reflexivity|]. split; [reflexivity|].
  split; [reflexivity|].
  exact (proj1 (timeout_keeps_engine_but_guard sample.silent_call
                  (ticker tickPeriod 7) timeoutDuration []
                  eq_refl eq_refl eq_refl eq_refl)).
Defined.

(** ** Lease-record introspection *)

(** C9: [GetLeaderDetails] hands each failure to its caller as it is and asks
    for nothing twice.  When the coordination record cannot be read (no
    client, or the fetch fails) the error of that step is returned; when the
    record is there without the election annotation the error is
    [ErrNotFound], which is not the "not found" of the backend; when the
    annotation does not decode the error of the decoder is returned; and when
    all steps go through the decoded record is returned with a nil error,
    which happens in no other case. *)
Theorem GetLeaderDetails_outcomes (env : Env) :
  let r := GetLeaderDetails env in
  let ns := GetResourcesNamespace env in
  (∀ e, GetAPIClient env = inr e → r.1 = (rl.zero, Some e))
  ∧ (∀ client e,
       GetAPIClient env = inl client →
       ConfigMaps_Get env (Client client) ns defaultLeaseName = inr e →
       r.1 = (rl.zero, Some e))
  ∧ (∀ client cm,
       GetAPIClient env = inl client →
       ConfigMaps_Get env (Client client) ns defaultLeaseName = inl cm →
       Annotations cm !! rl.LeaderElectionRecordAnnotationKey = None →
       r.1 = (rl.zero, Some ErrNotFound))
  ∧ (∀ client cm annotation led e,
       GetAPIClient env = inl client →
       ConfigMaps_Get env (Client client) ns defaultLeaseName = inl cm →
       Annotations cm !! rl.LeaderElectionRecordAnnotationKey = Some annotation →
       json_Unmarshal env annotation rl.zero = (led, Some e) →
       r.1 = (led, Some e))
  ∧ (∀ client cm annotation led,
       GetAPIClient env = inl client →
       ConfigMaps_Get env (Client client) ns defaultLeaseName = inl cm →
       Annotations cm !! rl.LeaderElectionRecordAnnotationKey = Some annotation →
       json_Unmarshal env annotation rl.zero = (led, None) →
       r.1 = (led, None))
  ∧ (r.1.2 = None →
     ∃ client cm annotation,
       GetAPIClient env = inl client
       ∧ ConfigMaps_Get env (Client client) ns defaultLeaseName = inl cm
       ∧ Annotations cm !! rl.LeaderElectionRecordAnnotationKey = Some annotation
       ∧ json_Unmarshal env annotation rl.zero = (r.1.1, None))
  ∧ (errors.IsNotFound ErrNotFound = false
     ∧ ∀ reason message, ErrNotFound ≠ StatusError reason message)
  ∧ (∃ annotation,
       r.2 `prefix_of`
         [ReqGetAPIClient; ReqConfigMapsGet ns defaultLeaseName;
          ReqUnmarshal annotation]).
Proof.
  cbv zeta. unfold GetLeaderDetails.
  split; [intros e ->; reflexivity|].
  split; [intros client e -> ->; reflexivity|].
  split; [intros client cm -> -> ->; reflexivity|].
  split; [intros client cm annotation led e -> -> -> ->; reflexivity|].
  split; [intros client cm annotation led -> -> -> ->; reflexivity|].
  split; [|split; [split; [reflexivity|discriminate]|]].
  - destruct (GetAPIClient env) as [client|e] eqn:Hclient; [|discriminate].
    destruct (ConfigMaps_Get env (Client client) (GetResourcesNamespace env)
                defaultLeaseName) as [cm|e] eqn:Hget; [|discriminate].
    destruct (Annotations cm !! rl.LeaderElectionRecordAnnotationKey)
      as [annotation|] eqn:Hann; [|discriminate].
    destruct (json_Unmarshal env annotation rl.zero) as [led [e|]] eqn:Hdec;
      [discriminate|].
    intros _. exists client, cm, annotation. simpl.
    repeat split; (reflexivity || assumption).
  - destruct (GetAPIClient env) as [client|e].
    2:{ exists "". eexists. reflexivity. }
    destruct (ConfigMaps_Get env (Client client) (GetResourcesNamespace env)
                defaultLeaseName) as [cm|e].
    2:{ exists "". eexists. reflexivity. }
    destruct (Annotations cm !! rl.LeaderElectionRecordAnnotationKey)
      as [annotation|].
    2:{ exists "". eexists. reflexivity. }
    exists annotation.
    destruct (json_Unmarshal env annotation rl.zero) as [led [e|]];
      exists []; reflexivity.
Qed.

Lemma GetLeaderDetails_outcomes_witness :
  (GetLeaderDetails sample.offline).1
  = (rl.zero, Some (ErrorString "unable to load in-cluster configuration"))
  ∧ (GetLeaderDetails sample.fresh_cluster).1
    = (rl.zero, Some (StatusError StatusReasonNotFound "configmaps not found"))
  ∧ (GetLeaderDetails sample.unannotated_cluster).1 = (rl.zero, Some ErrNotFound)
  ∧ (GetLeaderDetails sample.garbled_cluster).1
    = (rl.zero, Some (ErrorString "invalid character in annotation"))
  ∧ (GetLeaderDetails sample.settled_cluster).1 = (sample.record, None).
Proof.
  split; [|split; [|split; [|split]]].
  - destruct (GetLeaderDetails_outcomes sample.offline) as (H & _).
    exact (H _ eq_refl).
  - destruct (GetLeaderDetails_outcomes sample.fresh_cluster) as (_ & H & _).
    exact (H sample.client _ eq_refl eq_refl).
  - destruct (GetLeaderDetails_outcomes sample.unannotated_cluster)
      as (_ & _ & H & _).
    exact (H sample.client _ eq_refl eq_refl eq_refl).
  - destruct (GetLeaderDetails_outcomes sample.garbled_cluster)
      as (_ & _ & _ & H & _).
    exact (H sample.client _ _ _ _ eq_refl eq_refl eq_refl eq_refl).
  - destruct (GetLeaderDetails_outcomes sample.settled_cluster)
      as (_ & _ & _ & _ & H & _).
    exact (H sample.client _ _ _ eq_refl eq_refl eq_refl eq_refl).
Defined.

(** ** More on the initialisation *)

Lemma init_keeps (env : Env) (le : LeaderEngine) :
  running (init env le).2 = running le
  ∧ once (init env le).2 = once le
  ∧ currentHolderIdentity (init env le).2 = currentHolderIdentity le
  ∧ LeaseName (init env le).2 = LeaseName le
  ∧ LeaderNamespace (init env le).2 = LeaderNamespace le
  ∧ initRetry (init env le).2 = initRetry le.
Proof.
  unfold_init.
  destruct (String.eqb (HolderIdentity le) "");
    destruct (os_Hostname env) as [name [e|]]; simpl;
    repeat (case_match; simpl in *; simplify_eq); repeat split; reflexivity.
Qed.

(** X1: an attempt writes the identity, the lease duration, the client and
    the elector, and nothing else: the lifecycle flag, the run-once guard, the
    observed holder, the name and namespace of the lease and the retrier are
    as they were, whether the attempt succeeds or fails. *)
Theorem init_frame (env : Env) (le : LeaderEngine) :
  running (init env le).2 = running le
  ∧ once (init env le).2 = once le
  ∧ currentHolderIdentity (init env le).2 = currentHolderIdentity le
  ∧ LeaseName (init env le).2 = LeaseName le
  ∧ LeaderNamespace (init env le).2 = LeaderNamespace le
  ∧ initRetry (init env le).2 = initRetry le.
Proof.
  destruct (init_keeps env le) as (Hrun & Honce & Hcur & Hname & Hns & Hretry).
  repeat split; assumption.
Qed.

Lemma init_succeeds_steps (env : Env) (le : LeaderEngine) :
  (init env le).1 = None ↔ steps_pass env le.
Proof.
  unfold steps_pass. unfold_init.
  destruct (String.eqb_spec (HolderIdentity le) "") as [Hid|Hid];
    destruct (os_Hostname env) as [name [e0|]]; simpl;
    try (split; [discriminate|intros ([?|[=]] & _); congruence]);
    repeat (match goal with
            | |- context [(?a =? ?b)%Z] => destruct (a =? b)%Z; simpl
            end);
    (destruct (GetAPIClient env) as [client|e1]; simpl;
     [|split; [discriminate|intros (_ & (c & [=] & _) & _)]]);
    (destruct (ConfigMaps_Get env (Client client) (LeaderNamespace le)
                 defaultLeaseName) as [cm|e2] eqn:Hget; simpl;
     [|destruct (errors.IsNotFound e2) eqn:Hnf; simpl;
       [|split; [discriminate
                |intros (_ & (c & [= <-] & Hp) & _); rewrite Hget in Hp;
                 congruence]]]);
    (destruct (election_error env) as [e3|]; simpl;
     [split; [discriminate|intros (_ & _ & [=])]|]);
    (split; [intros _|reflexivity]);
    (split; [auto|split; [|reflexivity]]);
    exists client; (split; [reflexivity|]); rewrite Hget; auto.
Qed.

Lemma init_success_client (env : Env) (le : LeaderEngine) (client : APIClient) :
  (init env le).1 = None →
  GetAPIClient env = inl client →
  coreClient (init env le).2 = Some (Client client).
Proof.
  intros Hok Hclient. revert Hok. unfold_init. rewrite Hclient.
  destruct (String.eqb (HolderIdentity le) "");
    destruct (os_Hostname env) as [name [e|]]; simpl;
    repeat (case_match; simpl in *; simplify_eq); try reflexivity; discriminate.
Qed.

Lemma init_success_ready (env : Env) (le : LeaderEngine) :
  (init env le).1 = None → ready (init env le).2.
Proof.
  intros Hok.
  destruct (proj1 (init_succeeds_steps env le) Hok)
    as (Hpass & (client & Hc & _) & _).
  unfold ready.
  rewrite (init_success_elector env le Hok), (init_success_client env le client Hok Hc).
  split; [eexists; reflexivity|]. split; [eexists; reflexivity|].
  rewrite (init_LeaseDuration env le Hpass). apply resolved_lease_nonzero.
Qed.

(** X2: an attempt returns nil exactly when every step goes through: the
    identity is set or the host name resolves, the client is obtained, the
    probe finds the record or reports it not found, and the election state
    machine is constructed.  The engine is then ready: it holds the client,
    an elector bound to its identity, lease name, namespace and lease
    duration, and a lease that is not zero. *)
Theorem init_succeeds_iff (env : Env) (le : LeaderEngine) :
  ((init env le).1 = None ↔ steps_pass env le)
  ∧ ((init env le).1 = None →
     (∀ client, GetAPIClient env = inl client →
        coreClient (init env le).2 = Some (Client client))
     ∧ leaderElector (init env le).2 =
         Some {| electorIdentity := HolderIdentity (init env le).2;
                 electorLeaseName := LeaseName le;
                 electorNamespace := LeaderNamespace le;
                 electorLeaseDuration := LeaseDuration (init env le).2 |}
     ∧ ready (init env le).2).
Proof.
  split; [apply init_succeeds_steps|].
  intros Hok. pose proof (init_success_elector env le Hok) as Hel.
  split; [intros client; apply init_success_client, Hok|].
  split; [exact Hel|]. apply init_success_ready, Hok.
Qed.

Lemma init_succeeds_iff_witness :
  steps_pass sample.fresh_cluster sample.blank
  ∧ (init sample.fresh_cluster sample.blank).1 = None
  ∧ ready (init sample.fresh_cluster sample.blank).2.
Proof.
  assert (Hpass : steps_pass sample.fresh_cluster sample.blank).
  { split; [right; reflexivity|]. split; [|reflexivity].
    exists sample.client. split; reflexivity. }
  destruct (init_succeeds_iff sample.fresh_cluster sample.blank) as [Hiff Hready].
  split; [exact Hpass|]. split; [exact (proj2 Hiff Hpass)|].
  exact (proj2 (proj2 (Hready (proj2 Hiff Hpass)))).
Defined.

(** X3: an attempt that has succeeded has nothing left to do: a further
    attempt in the same surroundings succeeds again and leaves the engine
    exactly as the first one left it. *)
Theorem init_idempotent (env : Env) (le : LeaderEngine) :
  (init env le).1 = None →
  init env (init env le).2 = (None, (init env le).2).
Proof.
  unfold_init.
  destruct (String.eqb (HolderIdentity le) "") eqn:Hid;
    destruct (os_Hostname env) as [name [e0|]] eqn:Hhost; simpl;
    try discriminate.
  all: repeat (match goal with
               | |- context [(?a =? ?b)%Z] =>
                   let H := fresh "Hz" in destruct (a =? b)%Z eqn:H; simpl
               end).
  all: destruct (GetAPIClient env) as [client|e1]; simpl; try discriminate.
  all: destruct (ConfigMaps_Get env (Client client) (LeaderNamespace le)
                   defaultLeaseName) as [cm|e2] eqn:Hget; simpl;
    [|destruct (errors.IsNotFound e2) eqn:Hnf; simpl; try discriminate].
  all: destruct (election_error env) as [e3|]; simpl; try discriminate.
  all: intros _.
  all: try rewrite Hid; try rewrite Hhost; simpl.
  all: try (destruct (String.eqb name ""); simpl).
  all: repeat match goal with
              | H : (_ =? _)%Z = _ |- _ => rewrite ?H; clear H
              end; simpl.
  all: try rewrite Hget; simpl; try rewrite Hnf; simpl.
  all: try reflexivity.
Qed.

Lemma init_idempotent_witness :
  (init sample.fresh_cluster sample.blank).1 = None
  ∧ init sample.fresh_cluster (init sample.fresh_cluster sample.blank).2
    = (None, (init sample.fresh_cluster sample.blank).2).
Proof.
  split; [reflexivity|].
  exact (init_idempotent sample.fresh_cluster sample.blank eq_refl).
Defined.

(** ** More on the singleton accessor *)

Lemma initRetry_TriggerRetry_cfg (env : Env) (le : LeaderEngine) :
  retry.cfg (initRetry (initRetry_TriggerRetry env le).2) = retry.cfg (initRetry le).
Proof.
  unfold initRetry_TriggerRetry, retry.TriggerRetry.
  destruct (retry.status (initRetry le));
    destruct (retry.cfg (initRetry le)) as [c|] eqn:Hcfg; simpl; auto.
  all: destruct (now env <? retry.nextTry (initRetry le))%Z; simpl; auto.
  all: pose proof (init_keeps env le) as (_ & _ & _ & _ & _ & Hretry).
  all: destruct (init env le) as [[e|] le']; simpl in *; rewrite Hretry.
  all: try destruct (retry.cfgStrategy c); simpl; auto.
Qed.

(** The trigger makes an engine ready when it comes to hold a success, and
    keeps a ready engine ready. *)
Lemma initRetry_TriggerRetry_ready (env : Env) (le : LeaderEngine) :
  (retry.status (initRetry le) = retry.OK → ready le) →
  retry.status (initRetry (initRetry_TriggerRetry env le).2) = retry.OK →
  ready (initRetry_TriggerRetry env le).2.
Proof.
  intros Hready. unfold initRetry_TriggerRetry, retry.TriggerRetry.
  destruct (retry.status (initRetry le)) eqn:Hst;
    destruct (retry.cfg (initRetry le)) as [c|]; simpl.
  all: try (rewrite Hst; discriminate).
  all: try (intros _; apply Hready; reflexivity).
  all: destruct (now env <? retry.nextTry (initRetry le))%Z; simpl;
    [rewrite Hst; discriminate|].
  all: pose proof (init_success_ready env le) as Hinit.
  all: destruct (init env le) as [[e|] le'] eqn:Hi; simpl in *.
  all: try (destruct (retry.cfgStrategy c); simpl;
            try destruct (retry.cfgRetryCount c <=? _)%nat; discriminate).
  all: intros _; exact (Hinit eq_refl).
Qed.

Lemma package_ok_access (a : access) (p : Package) :
  package_ok p → package_ok (do_access a p).
Proof.
  intros Hok.
  assert (Hget : ∀ env id ttl,
            package_ok (GetCustomLeaderEngine env id ttl p).2).
  { intros env id ttl. rewrite GetCustomLeaderEngine_unfold. cbv zeta.
    unfold package_ok in *. simpl.
    rewrite initRetry_TriggerRetry_cfg.
    unfold singleton. destruct (globalLeaderEngine p) as [[addr le]|].
    - destruct Hok as (Haddr & Hcfg & Hready).
      split; [exact Haddr|]. split; [exact Hcfg|].
      apply initRetry_TriggerRetry_ready, Hready.
    - split; [lia|]. split; [reflexivity|].
      apply initRetry_TriggerRetry_ready. discriminate. }
  destruct a as [env id ttl|env|]; simpl.
  - apply Hget.
  - apply Hget.
  - exact I.
Qed.

Lemma package_ok_accesses (acs : list access) (p : Package) :
  package_ok p → package_ok (do_accesses acs p).
Proof.
  revert p. induction acs as [|a acs IH]; intros p Hok; simpl; [exact Hok|].
  apply IH, package_ok_access, Hok.
Qed.

(** X4: whatever calls of the accessor and resets came before, an engine the
    accessor returns is the singleton and is ready to run the election: it
    has its client and its elector, so that the gate never starts the run
    loop of a missing elector, and its lease is not zero. *)
Theorem accessor_returns_ready_engine
    (acs : list access) (env : Env) (holderIdentity : string) (ttl : Z)
    (addr : nat) :
  let p := do_accesses acs no_engine in
  (GetCustomLeaderEngine env holderIdentity ttl p).1.1 = Some addr →
  ∃ le,
    globalLeaderEngine (GetCustomLeaderEngine env holderIdentity ttl p).2
    = Some (addr, le)
    ∧ (addr < allocated (GetCustomLeaderEngine env holderIdentity ttl p).2)%nat
    ∧ is_Some (coreClient le)
    ∧ is_Some (leaderElector le)
    ∧ LeaseDuration le ≠ 0%Z.
Proof.
  cbv zeta. intros Hptr.
  pose proof (package_ok_access (Get env holderIdentity ttl)
                (do_accesses acs no_engine)
                (package_ok_accesses acs no_engine I)) as Hok.
  simpl in Hok. revert Hptr Hok. rewrite GetCustomLeaderEngine_unfold. cbv zeta.
  unfold package_ok. simpl.
  pose proof (initRetry_TriggerRetry_nil_iff env
                (singleton env holderIdentity ttl (do_accesses acs no_engine)))
    as Hiff.
  destruct (initRetry_TriggerRetry env _) as [[e|] le']; simpl in *;
    [discriminate|].
  intros [= <-] (Haddr & _ & Hready).
  destruct (Hready (proj1 Hiff eq_refl)) as (Hc & Hel & Hlease).
  eexists. split; [reflexivity|]. auto.
Qed.

Lemma accessor_returns_ready_engine_witness :
  (GetCustomLeaderEngine sample.settled_cluster "pod-b" (5 * time.Second)
     (do_accesses [GetDefault sample.nameless_host; Reset;
                   GetDefault sample.fresh_cluster] no_engine)).1.1 = Some 1
  ∧ ∃ le,
      globalLeaderEngine
        (GetCustomLeaderEngine sample.settled_cluster "pod-b" (5 * time.Second)
           (do_accesses [GetDefault sample.nameless_host; Reset;
                         GetDefault sample.fresh_cluster] no_engine)).2
      = Some (1, le)
      ∧ is_Some (leaderElector le).
Proof.
  split; [reflexivity|].
  destruct (accessor_returns_ready_engine
              [GetDefault sample.nameless_host; Reset;
               GetDefault sample.fresh_cluster]
              sample.settled_cluster "pod-b" (5 * time.Second) 1 eq_refl)
    as (le & Hglobal & _ & _ & Hel & _).
  exists le. split; assumption.
Defined.

(** X5: after a reset the accessor builds a new engine and ignores the old
    one: the singleton it installs lives at an address no engine had before,
    and it is what the trigger makes of an engine built from the arguments of
    the call, not of the engine that was discarded. *)
Theorem reset_then_get_builds_anew
    (acs : list access) (env : Env) (holderIdentity : string) (ttl : Z)
    (addr : nat) (le : LeaderEngine) :
  let p := do_accesses acs no_engine in
  globalLeaderEngine p = Some (addr, le) →
  let r := GetCustomLeaderEngine env holderIdentity ttl (ResetGlobalLeaderEngine p) in
  let built :=
    set_initRetry (retry.SetupRetrier initRetry_config retry.zero)
      (set_LeaseDuration ttl
         (set_HolderIdentity holderIdentity (newLeaderEngine env))) in
  globalLeaderEngine r.2
  = Some (allocated p, (initRetry_TriggerRetry env built).2)
  ∧ allocated p ≠ addr
  ∧ allocated r.2 = S (allocated p)
  ∧ (∀ addr', r.1.1 = Some addr' → addr' ≠ addr).
Proof.
  cbv zeta. intros Hglobal.
  pose proof (package_ok_accesses acs no_engine I) as Hok.
  unfold package_ok in Hok. rewrite Hglobal in Hok. destruct Hok as (Haddr & _).
  rewrite GetCustomLeaderEngine_unfold. cbv zeta. simpl.
  split; [reflexivity|]. split; [lia|]. split; [reflexivity|].
  intros addr'. destruct (initRetry_TriggerRetry env _).1; intros [= <-]. lia.
Qed.

Lemma reset_then_get_builds_anew_witness :
  globalLeaderEngine (do_accesses [GetDefault sample.nameless_host] no_engine)
  = Some (0, sample.unresolved)
  ∧ allocated
      (GetCustomLeaderEngine sample.settled_cluster "pod-b" (5 * time.Second)
         (ResetGlobalLeaderEngine
            (do_accesses [GetDefault sample.nameless_host] no_engine))).2
    = 2.
Proof.
  split; [reflexivity|].
  destruct (reset_then_get_builds_anew [GetDefault sample.nameless_host]
              sample.settled_cluster "pod-b" (5 * time.Second) 0
              sample.unresolved eq_refl) as (_ & _ & Halloc & _).
  exact Halloc.
Defined.

(** X6: the first call of the accessor that succeeds installs an engine
    built from its arguments: the identity is the argument, or the host name
    when the argument is empty; the lease is the configured one, or else the
    argument, or else the default of 60 seconds when both are zero; the lease
    name is the default, the namespace is that of the resources, and the
    election has not started. *)
Theorem first_call_builds_from_arguments
    (env : Env) (holderIdentity : string) (ttl : Z) (p : Package) :
  globalLeaderEngine p = None →
  (GetCustomLeaderEngine env holderIdentity ttl p).1.2 = None →
  ∃ le,
    (GetCustomLeaderEngine env holderIdentity ttl p).1.1 = Some (allocated p)
    ∧ globalLeaderEngine (GetCustomLeaderEngine env holderIdentity ttl p).2
      = Some (allocated p, le)
    ∧ HolderIdentity le
      = (if String.eqb holderIdentity "" then (os_Hostname env).1
         else holderIdentity)
    ∧ LeaseDuration le
      = (let configured := config_GetInt_leader_lease_duration env in
         let overridden :=
           if (configured =? 0)%Z then ttl
           else time.mul configured time.Second in
         if (overridden =? 0)%Z then defaultLeaderLeaseDuration else overridden)
    ∧ LeaseName le = defaultLeaseName
    ∧ LeaderNamespace le = GetResourcesNamespace env
    ∧ running le = false ∧ once le = false ∧ currentHolderIdentity le = "".
Proof.
  intros Hnone. rewrite GetCustomLeaderEngine_unfold. cbv zeta.
  unfold singleton. rewrite Hnone. simpl.
  set (built := set_initRetry (retry.SetupRetrier initRetry_config retry.zero)
                  (set_LeaseDuration ttl
                     (set_HolderIdentity holderIdentity (newLeaderEngine env)))).
  unfold initRetry_TriggerRetry, retry.TriggerRetry. simpl.
  destruct (now env <? 0)%Z; simpl; [discriminate|].
  pose proof (init_keeps env built) as (Hrun & Honce & Hcur & Hname & Hns & _).
  pose proof (init_succeeds_steps env built) as Hsteps.
  pose proof (init_LeaseDuration env built) as Hlease.
  pose proof (init_HolderIdentity_empty env built) as Hempty.
  pose proof (init_HolderIdentity_set env built) as Hset.
  destruct (init env built) as [[e|] le'] eqn:Hinit; simpl in *.
  { unfold retry.LastError, retry.record_try. simpl.
    match goal with |- context [if ?b then _ else _] => destruct b end;
      discriminate. }
  intros _. eexists. split; [reflexivity|]. split; [reflexivity|]. simpl.
  destruct (proj1 Hsteps eq_refl) as (Hpass & _).
  rewrite (Hlease Hpass), Hrun, Honce, Hcur, Hname, Hns.
  split; [|repeat split; reflexivity].
  destruct (String.eqb_spec holderIdentity "") as [->|Hid].
  - apply (Hempty eq_refl).
  - apply (Hset Hid).
Qed.

Lemma first_call_builds_from_arguments_witness :
  globalLeaderEngine no_engine = None
  ∧ (GetCustomLeaderEngine sample.fresh_cluster "pod-a" (15 * time.Second)
       no_engine).1.2 = None
  ∧ ∃ le,
      globalLeaderEngine
        (GetCustomLeaderEngine sample.fresh_cluster "pod-a" (15 * time.Second)
           no_engine).2 = Some (0, le)
      ∧ HolderIdentity le = "pod-a"
      ∧ LeaseDuration le = 15000000000%Z.
Proof.
  split; [reflexivity|]. split; [reflexivity|].
  destruct (first_call_builds_from_arguments sample.fresh_cluster "pod-a"
              (15 * time.Second) no_engine eq_refl eq_refl)
    as (le & _ & Hglobal & Hid & Hlease & _).
  exists le. split; [exact Hglobal|]. split; [exact Hid|exact Hlease].
Defined.

(** ** More on the readiness gate *)

Lemma poll_fields (evs : list event) (le : LeaderEngine) :
  initRetry (poll evs le).1.2 = initRetry le
  ∧ HolderIdentity (poll evs le).1.2 = HolderIdentity le
  ∧ LeaseDuration (poll evs le).1.2 = LeaseDuration le
  ∧ LeaseName (poll evs le).1.2 = LeaseName le
  ∧ LeaderNamespace (poll evs le).1.2 = LeaderNamespace le
  ∧ coreClient (poll evs le).1.2 = coreClient le
  ∧ (running le = true → running (poll evs le).1.2 = true).
Proof.
  revert le. induction evs as [|[identity|t|t] evs IH]; intros le; simpl.
  - repeat split; auto.
  - apply (IH (OnNewLeader identity le)).
  - destruct (String.eqb (CurrentLeaderName le) ""); simpl; [apply IH|].
    repeat split; auto.
  - repeat split; auto.
Qed.

(** X7: a call of the gate, whatever it returns, leaves the configuration of
    the engine alone: identity, lease duration, lease name, namespace, client,
    elector and retrier are as before; and it never takes back what it has
    set: a fired guard stays fired and [running] stays set. *)
Theorem EnsureLeaderElectionRuns_frame (w : World) :
  let le := engine w in
  let le' := engine (EnsureLeaderElectionRuns w).2 in
  initRetry le' = initRetry le
  ∧ HolderIdentity le' = HolderIdentity le
  ∧ LeaseDuration le' = LeaseDuration le
  ∧ LeaseName le' = LeaseName le
  ∧ LeaderNamespace le' = LeaderNamespace le
  ∧ coreClient le' = coreClient le
  ∧ leaderElector le' = leaderElector le
  ∧ (once le = true → once le' = true)
  ∧ (running le = true → running le' = true).
Proof.
  cbv zeta. destruct (running (engine w)) eqn:Hrun.
  - rewrite EnsureLeaderElectionRuns_fast by assumption. simpl.
    repeat split; auto.
  - destruct (EnsureLeaderElectionRuns_fires w Hrun) as [Hon Hel].
    rewrite EnsureLeaderElectionRuns_slow in * by assumption.
    pose proof (poll_fields (pending w) (set_once true (engine w)))
      as (H1 & H2 & H3 & H4 & H5 & H6 & _).
    destruct (poll _ _) as [[r le'] rest]. simpl in *.
    repeat split; auto; discriminate.
Qed.

Lemma EnsureLeaderElectionRuns_frame_witness :
  once (engine sample.silent_call) = false
  ∧ HolderIdentity (engine (EnsureLeaderElectionRuns sample.first_call).2) = "pod-a"
  ∧ running
      (engine
         (EnsureLeaderElectionRuns
            {| engine := set_running true sample.pod_a; runLoops := [];
               pending := timers false |}).2) = true.
Proof.
  split; [reflexivity|].
  destruct (EnsureLeaderElectionRuns_frame sample.first_call)
    as (_ & Hid & _).
  split; [exact Hid|].
  destruct (EnsureLeaderElectionRuns_frame
              {| engine := set_running true sample.pod_a; runLoops := [];
                 pending := timers false |}) as (_ & _ & _ & _ & _ & _ & _ & _ & Hrun).
  exact (Hrun eq_refl).
Defined.

(** X8: a call of the gate ends in one of three ways.  It returns nil, and
    then [running] is set and, if it was not set before, the holder identity
    the engine holds is not empty.  Or it returns the timeout error, the only
    error it has, and [running] is not set.  Or the events end with the call
    still waiting, which needs that no timeout is among them. *)
Theorem EnsureLeaderElectionRuns_outcomes (w : World) :
  let r := (EnsureLeaderElectionRuns w).1 in
  let w' := (EnsureLeaderElectionRuns w).2 in
  (r = Some None ∧ running (engine w') = true
   ∧ (running (engine w) = false → CurrentLeaderName (engine w') ≠ ""))
  ∨ (r = Some (Some timeoutError) ∧ running (engine w) = false
     ∧ running (engine w') = false)
  ∨ (r = None ∧ running (engine w) = false ∧ running (engine w') = false
     ∧ pending w' = [] ∧ ∀ t, Timeout t ∉ pending w).
Proof.
  cbv zeta. destruct (running (engine w)) eqn:Hrun.
  - rewrite EnsureLeaderElectionRuns_fast by assumption. simpl.
    left. split; [reflexivity|]. split; [assumption|discriminate].
  - rewrite EnsureLeaderElectionRuns_slow by assumption.
    destruct (poll (pending w) (set_once true (engine w)))
      as [[[r|] le'] rest] eqn:Hpoll; simpl.
    + apply poll_returns in Hpoll
        as (pre & d & Hpending & Hun
            & [(_ & -> & Hholder & ->)|(_ & -> & ->)]).
      * left. split; [reflexivity|]. split; [reflexivity|].
        intros _. exact Hholder.
      * right. left. split; [reflexivity|]. split; [reflexivity|].
        rewrite apply_writes_set_once, apply_writes_frame. simpl. exact Hrun.
    + apply poll_waiting in Hpoll as (Hun & -> & ->).
      right. right. split; [reflexivity|]. split; [reflexivity|].
      split; [rewrite apply_writes_set_once, apply_writes_frame; exact Hrun|].
      split; [reflexivity|].
      intros t. eapply unanswered_no_timeout, Hun.
Qed.

Lemma EnsureLeaderElectionRuns_outcomes_witness :
  running (engine sample.first_call) = false
  ∧ (EnsureLeaderElectionRuns sample.first_call).1 = Some None
  ∧ CurrentLeaderName (engine (EnsureLeaderElectionRuns sample.first_call).2) ≠ "".
Proof.
  split; [reflexivity|]. split; [reflexivity|].
  destruct (EnsureLeaderElectionRuns_outcomes sample.first_call)
    as [(_ & _ & Hholder)|[(Herr & _)|(Hwait & _)]].
  - exact (Hholder eq_refl).
  - vm_compute in Herr. discriminate Herr.
  - vm_compute in Hwait. discriminate Hwait.
Defined.

Lemma do_step_running (s : step) (w : World) :
  running (engine w) = true →
  running (engine (do_step s w)) = true ∧ runLoops (do_step s w) = runLoops w.
Proof.
  intros Hrun. destruct s as [during|identity]; simpl; [|auto].
  rewrite EnsureLeaderElectionRuns_fast by exact Hrun. auto.
Qed.

(** X9: once [running] is set nothing resets it.  After any further calls and
    callbacks it is still set and no run loop has been added, and a call
    returns nil at once without looking at the holder identity, also when the
    callback has emptied it in the meantime. *)
Theorem running_is_never_reset (ss : list step) (w : World) :
  running (engine w) = true →
  running (engine (do_steps ss w)) = true
  ∧ runLoops (do_steps ss w) = runLoops w
  ∧ ∀ evs,
      EnsureLeaderElectionRuns
        {| engine := engine (do_steps ss w); runLoops := runLoops w;
           pending := evs |}
      = (Some None,
         {| engine := engine (do_steps ss w); runLoops := runLoops w;
            pending := evs |}).
Proof.
  intros Hrun.
  assert (H : running (engine (do_steps ss w)) = true
              ∧ runLoops (do_steps ss w) = runLoops w).
  { revert w Hrun. induction ss as [|s ss IH]; intros w Hrun; simpl; [auto|].
    destruct (do_step_running s w Hrun) as [Hrun' Hloops].
    destruct (IH _ Hrun') as [IHrun IHloops]. split; congruence. }
  destruct H as [Hrun' Hloops]. split; [exact Hrun'|]. split; [exact Hloops|].
  intros evs. apply EnsureLeaderElectionRuns_fast. exact Hrun'.
Qed.

Lemma running_is_never_reset_witness :
  running (engine (EnsureLeaderElectionRuns sample.first_call).2) = true
  ∧ CurrentLeaderName
      (engine
         (do_steps [Callback ""; Call (timers false)]
            (EnsureLeaderElectionRuns sample.first_call).2)) = ""
  ∧ running
      (engine
         (do_steps [Callback ""; Call (timers false)]
            (EnsureLeaderElectionRuns sample.first_call).2)) = true.
Proof.
  split; [reflexivity|]. split; [reflexivity|].
  exact (proj1 (running_is_never_reset [Callback ""; Call (timers false)]
                  (EnsureLeaderElectionRuns sample.first_call).2 eq_refl)).
Defined.

Lemma do_step_running_fired (s : step) (w : World) :
  (running (engine w) = true → once (engine w) = true) →
  running (engine (do_step s w)) = true → once (engine (do_step s w)) = true.
Proof.
  intros Hinv. destruct s as [during|identity]; simpl; [|exact Hinv].
  set (w0 := {| engine := engine w; runLoops := runLoops w; pending := during |}).
  destruct (running (engine w0)) eqn:Hrun.
  - rewrite EnsureLeaderElectionRuns_fast by exact Hrun. intros _.
    apply Hinv, Hrun.
  - intros _. apply EnsureLeaderElectionRuns_fires, Hrun.
Qed.

(** X10: [running] is only ever set behind the guard.  On an engine that
    starts with [running] unset, whatever calls and callbacks follow, when
    [running] is set the run-once guard has fired; and if the guard had not
    fired at the start, exactly one run loop has been started, that of the
    elector of the engine. *)
Theorem running_needs_launch (le : LeaderEngine) (ss : list step) :
  running le = false →
  let w := do_steps ss {| engine := le; runLoops := []; pending := [] |} in
  running (engine w) = true →
  once (engine w) = true
  ∧ (once le = false → runLoops w = [leaderElector le]).
Proof.
  intros Hstart. cbv zeta.
  assert (Hinv : ∀ w : World,
            (running (engine w) = true → once (engine w) = true) →
            running (engine (do_steps ss w)) = true →
            once (engine (do_steps ss w)) = true).
  { induction ss as [|s ss IH]; intros w Hw; simpl; [exact Hw|].
    apply IH, do_step_running_fired, Hw. }
  intros Hrun.
  assert (Hfired : once
            (engine (do_steps ss {| engine := le; runLoops := []; pending := [] |}))
            = true).
  { apply Hinv; [simpl; congruence|exact Hrun]. }
  split; [exact Hfired|]. intros Hunfired.
  destruct (launched_once_steps le ss
              {| engine := le; runLoops := []; pending := [] |})
    as (_ & [[Honce _]|(_ & _ & Hone)]).
  - split; [reflexivity|]. left. auto.
  - congruence.
  - exact Hone.
Qed.

Lemma running_needs_launch_witness :
  running sample.pod_a = false
  ∧ once sample.pod_a = false
  ∧ running
      (engine
         (do_steps [Call (timers true); Callback "pod-b"; Call (timers true)]
            {| engine := sample.pod_a; runLoops := []; pending := [] |})) = true
  ∧ runLoops
      (do_steps [Call (timers true); Callback "pod-b"; Call (timers true)]
         {| engine := sample.pod_a; runLoops := []; pending := [] |})
    = [leaderElector sample.pod_a].
Proof.
  split; [reflexivity|]. split; [reflexivity|]. split; [reflexivity|].
  exact (proj2 (running_needs_launch sample.pod_a
                  [Call (timers true); Callback "pod-b"; Call (timers true)]
                  eq_refl eq_refl) eq_refl).
Defined.

(** *** When the gate returns *)

Lemma interleave_app (writes : nat → list string) (k : nat) (a b : list event) :
  interleave writes k (a ++ b)
  = (interleave writes k a ++ interleave writes (k + length a) b)%list.
Proof.
  revert k. induction a as [|d a IH]; intros k; simpl.
  - rewrite Nat.add_0_r. reflexivity.
  - rewrite IH, <- !app_assoc. simpl.
    replace (k + S (length a))%nat with (S (k + length a))%nat by lia.
    reflexivity.
Qed.

Lemma interleave_silent (writes : nat → list string) (k : nat) (a : list event) :
  (∀ i, (k <= i < k + length a)%nat → writes i = []) →
  interleave writes k a = a.
Proof.
  revert k. induction a as [|d a IH]; intros k Hsilent; simpl; [reflexivity|].
  rewrite (Hsilent k) by (simpl; lia). simpl. f_equal.
  apply IH. intros i Hi. apply Hsilent. simpl. lia.
Qed.

Lemma ticker_split (period : Z) (j n : nat) :
  (j < n)%nat →
  ticker period n
  = (ticker period j
     ++ Tick (Z.of_nat (S j) * period)
        :: map (fun k => Tick (Z.of_nat k * period)) (seq (S (S j)) (n - S j)))%list.
Proof.
  intros Hj. unfold ticker.
  replace n with (j + S (n - S j))%nat at 1 by lia.
  rewrite seq_app, map_app. simpl. reflexivity.
Qed.

Lemma ticker_length (period : Z) (n : nat) : length (ticker period n) = n.
Proof. unfold ticker. rewrite length_map, length_seq. reflexivity. Qed.

Lemma ticker_quiet (period : Z) (n : nat) : quiet (ticker period n) = true.
Proof.
  unfold ticker. generalize 1%nat.
  induction n as [|n IH]; intros k; simpl; [reflexivity|apply IH].
Qed.

(** X11: with the two timers on an ideal clock, a holder identity reported for
    the first time during the interval before tick [j + 1] makes the call
    return nil at that tick, [(j + 1) * 500ms] into the call and no later than
    3.5 seconds: the ticks before it are polled in vain, the events after it
    are left unconsumed, and the engine holds the reported identity with
    [running] set. *)
Theorem gate_returns_at_next_tick
    (w : World) (writes : nat → list string) (tick_first : bool)
    (j : nat) (identity : string) :
  running (engine w) = false →
  currentHolderIdentity (engine w) = "" →
  pending w = interleave writes 0 (timers tick_first) →
  (∀ k, (k < j)%nat → writes k = []) →
  writes j = [identity] →
  identity ≠ "" →
  (j < 7)%nat →
  ∃ rest,
    pending w
    = (ticker tickPeriod j
       ++ NewLeader identity :: Tick (Z.of_nat (S j) * tickPeriod) :: rest)%list
    ∧ EnsureLeaderElectionRuns w
      = (Some None,
         {| engine :=
              set_running true (set_once true (OnNewLeader identity (engine w)));
            runLoops := (runLoops w ++ launch (engine w))%list;
            pending := rest |})
    ∧ (Z.of_nat (S j) * tickPeriod <= timeoutDuration - tickPeriod)%Z.
Proof.
  intros Hrun Hempty Hpending Hsilent Hwrite Hid Hj.
  set (n := if tick_first then 8%nat else 7%nat).
  assert (Hn : (j < n)%nat) by (subst n; destruct tick_first; lia).
  assert (Hshape : pending w
    = (ticker tickPeriod j
       ++ NewLeader identity :: Tick (Z.of_nat (S j) * tickPeriod)
          :: interleave writes (S j)
               (map (fun k => Tick (Z.of_nat k * tickPeriod))
                    (seq (S (S j)) (n - S j))
                ++ [Timeout timeoutDuration]))%list).
  { rewrite Hpending, timers_unfold. fold n.
    rewrite (ticker_split tickPeriod j n Hn), <- app_assoc, interleave_app.
    rewrite interleave_silent
      by (intros i Hi; rewrite ticker_length in Hi; apply Hsilent; lia).
    rewrite ticker_length. simpl. rewrite Hwrite. reflexivity. }
  eexists. split; [exact Hshape|]. split.
  - rewrite EnsureLeaderElectionRuns_slow by exact Hrun. rewrite Hshape.
    destruct (quiet_unanswered (ticker tickPeriod j) (set_once true (engine w))
                Hempty (ticker_quiet tickPeriod j)) as [Hun Hsame].
    rewrite (poll_unanswered _ _ _ Hun), Hsame. simpl.
    destruct (String.eqb_spec identity "") as [Heq|_]; [destruct (Hid Heq)|].
    reflexivity.
  - change timeoutDuration with (8 * tickPeriod)%Z.
    assert (0 < tickPeriod)%Z by reflexivity. nia.
Qed.

Lemma gate_returns_at_next_tick_witness :
  running (engine sample.first_call) = false
  ∧ currentHolderIdentity (engine sample.first_call) = ""
  ∧ sample.pod_a_after_600ms 1 = ["pod-a"]
  ∧ ∃ rest,
      pending sample.first_call
      = (ticker tickPeriod 1
         ++ NewLeader "pod-a" :: Tick (Z.of_nat 2 * tickPeriod) :: rest)%list
      ∧ (EnsureLeaderElectionRuns sample.first_call).1 = Some None.
Proof.
  split; [reflexivity|]. split; [reflexivity|]. split; [reflexivity|].
  destruct (gate_returns_at_next_tick sample.first_call sample.pod_a_after_600ms
              true 1 "pod-a" eq_refl eq_refl eq_refl) as (rest & Hshape & Hret & _).
  - intros k Hk. assert (k = 0)%nat as -> by lia. reflexivity.
  - reflexivity.
  - discriminate.
  - lia.
  - exists rest. split; [exact Hshape|]. rewrite Hret. reflexivity.
Defined.

(** ** Leases at the edges *)

Lemma wrap64_small (z : Z) :
  (- 2 ^ 63 <= z < 2 ^ 63)%Z → time.wrap64 z = z.
Proof. intros Hz. unfold time.wrap64. rewrite Z.mod_small; lia. Qed.

(** X12: only zero counts as unset.  A negative configured lease is taken as
    it is and leaves the engine with a negative lease duration; and a
    configured lease that is not zero but whose nanoseconds are a multiple of
    [2 ^ 64] wraps to zero and leaves the engine with the default of 60
    seconds. *)
Theorem init_lease_edges (env : Env) (le : LeaderEngine) :
  HolderIdentity le ≠ "" ∨ (os_Hostname env).2 = None →
  ((-9223372036 <= leader_lease_duration env < 0)%Z →
   LeaseDuration (init env le).2 = (leader_lease_duration env * 1000000000)%Z
   ∧ (LeaseDuration (init env le).2 < 0)%Z)
  ∧ ((- 2 ^ 63 <= leader_lease_duration env < 2 ^ 63)%Z →
     leader_lease_duration env ≠ 0%Z →
     ((leader_lease_duration env * 1000000000) mod 2 ^ 64 = 0)%Z →
     LeaseDuration (init env le).2 = defaultLeaderLeaseDuration).
Proof.
  intros Hpass. rewrite (init_LeaseDuration env le Hpass).
  unfold resolved_lease, config_GetInt_leader_lease_duration. split.
  - intros Hneg. rewrite wrap64_small by lia.
    rewrite mul_Second_exact by lia.
    destruct (Z.eqb_spec (leader_lease_duration env) 0) as [?|_]; [lia|].
    destruct (Z.eqb_spec (leader_lease_duration env * 1000000000) 0) as [?|_];
      lia.
  - intros Hrange Hnz Hwrap. rewrite wrap64_small by exact Hrange.
    destruct (Z.eqb_spec (leader_lease_duration env) 0) as [?|_]; [contradiction|].
    assert (Hzero : time.mul (leader_lease_duration env) time.Second = 0%Z).
    { unfold time.mul, time.wrap64.
      change time.Second with 1000000000%Z.
      rewrite <- Zplus_mod_idemp_l, Hwrap. reflexivity. }
    rewrite Hzero. reflexivity.
Qed.

Lemma init_lease_edges_witness :
  LeaseDuration (init lease_sample.negative sample.blank).2 = (-30000000000)%Z
  ∧ LeaseDuration (init lease_sample.overflowing sample.blank).2
    = 60000000000%Z.
Proof.
  split.
  - destruct (init_lease_edges lease_sample.negative sample.blank
                (or_intror eq_refl)) as [Hneg _].
    refine (proj1 (Hneg _)). simpl. lia.
  - destruct (init_lease_edges lease_sample.overflowing sample.blank
                (or_intror eq_refl)) as [_ Hwrap].
    apply Hwrap; [simpl; lia|discriminate|reflexivity].
Defined.

(** ** Rates over a flush period *)

Section HistorateProperties.

Context {Histogram Serie : Type}.
Variable Histogram_addSample :
  aggregator.MetricSample -> float -> Histogram -> Histogram.
Variable Histogram_flush :
  float -> Histogram -> (list Serie * option aggregator.error) * Histogram.

Lemma addSamples_rated (samples : list (aggregator.MetricSample * float))
    (h : aggregator.Historate Histogram) :
  aggregator.nonzero (aggregator.previousTimestamp h) = true →
  Forall (fun s => aggregator.nonzero s.2 = true) samples →
  aggregator.histogram (aggregator.addSamples Histogram_addSample samples h)
  = aggregator.feed Histogram_addSample
      (aggregator.rates (aggregator.previousSample h)
         (aggregator.previousTimestamp h) samples)
      (aggregator.histogram h)
  ∧ aggregator.sampled (aggregator.addSamples Histogram_addSample samples h)
    = (aggregator.sampled h || negb (Nat.eqb (length samples) 0)).
Proof.
  intros Hprev Hall. revert h Hprev.
  induction Hall as [|[s t] samples Ht _ IH]; intros h Hprev.
  - simpl. rewrite orb_false_r. auto.
  - change (aggregator.addSamples Histogram_addSample ((s, t) :: samples) h)
      with (aggregator.addSamples Histogram_addSample samples
              (aggregator.addSample Histogram_addSample s t h)).
    destruct (IH (aggregator.addSample Histogram_addSample s t h) Ht)
      as [Hhist Hsampled].
    rewrite Hhist, Hsampled. unfold aggregator.addSample. rewrite Hprev. simpl.
    split; [reflexivity|]. rewrite orb_true_r. reflexivity.
Qed.

(** X13: one sample after a reset is not enough for a rate.  On a historate
    with no earlier sample to rate against, a sample reaches the histogram
    not at all, and a flush then reports no serie and keeps the sample as the
    base of the next rate. *)
Theorem single_sample_reports_nothing
    (s : aggregator.MetricSample) (t ts : float)
    (h : aggregator.Historate Histogram) :
  aggregator.nonzero (aggregator.previousTimestamp h) = false →
  aggregator.sampled h = false →
  aggregator.histogram (aggregator.addSample Histogram_addSample s t h) = aggregator.histogram h
  ∧ aggregator.flush Histogram_flush ts (aggregator.addSample Histogram_addSample s t h)
    = (([], Some aggregator.NoSerieError), aggregator.addSample Histogram_addSample s t h)
  ∧ aggregator.previousSample (aggregator.flush Histogram_flush ts (aggregator.addSample Histogram_addSample s t h)).2 = aggregator.Value s
  ∧ aggregator.previousTimestamp (aggregator.flush Histogram_flush ts (aggregator.addSample Histogram_addSample s t h)).2 = t.
Proof.
  intros Hprev Hsampled.
  unfold aggregator.flush, aggregator.addSample. rewrite Hprev. simpl.
  rewrite Hsampled. simpl. auto.
Qed.

(** X14: a first sample followed by further ones, all at timestamps other
    than zero, feeds the histogram the rates between consecutive samples, in
    order and each at the timestamp of the later sample: one rate less than
    there are samples.  The historate counts as sampled from the second
    sample on. *)
Theorem samples_feed_consecutive_rates
    (s0 : aggregator.MetricSample) (t0 : float)
    (samples : list (aggregator.MetricSample * float))
    (h : aggregator.Historate Histogram) :
  aggregator.nonzero (aggregator.previousTimestamp h) = false →
  aggregator.nonzero t0 = true →
  Forall (fun s => aggregator.nonzero s.2 = true) samples →
  aggregator.histogram (aggregator.addSamples Histogram_addSample ((s0, t0) :: samples) h)
  = aggregator.feed Histogram_addSample (aggregator.rates (aggregator.Value s0) t0 samples)
      (aggregator.histogram h)
  ∧ length (aggregator.rates (aggregator.Value s0) t0 samples) = length samples
  ∧ aggregator.sampled (aggregator.addSamples Histogram_addSample ((s0, t0) :: samples) h)
    = (aggregator.sampled h || negb (Nat.eqb (length samples) 0)).
Proof.
  intros Hprev Ht0 Hall. simpl.
  destruct (addSamples_rated samples (aggregator.addSample Histogram_addSample s0 t0 h)) as [Hhist Hsampled];
    [exact Ht0|exact Hall|].
  unfold aggregator.addSamples in *. rewrite Hhist, Hsampled.
  unfold aggregator.addSample. rewrite Hprev. simpl.
  split; [reflexivity|]. split; [|reflexivity].
  clear. generalize (aggregator.Value s0), t0.
  induction samples as [|[s t] samples IH]; intros v t'; simpl; [reflexivity|].
  rewrite IH. reflexivity.
Qed.

(** X15: a flush of a sampled historate hands over to the histogram and
    starts a new period with nothing to rate against: the flush returns what
    the histogram returns, and the next sample reaches the histogram not at
    all, so that no rate spans the flush. *)
Theorem flush_starts_new_period
    (ts : float) (h : aggregator.Historate Histogram)
    (s : aggregator.MetricSample) (t : float) :
  aggregator.sampled h = true →
  (aggregator.flush Histogram_flush ts h).1 = (Histogram_flush ts (aggregator.histogram h)).1
  ∧ aggregator.histogram (aggregator.flush Histogram_flush ts h).2
    = (Histogram_flush ts (aggregator.histogram h)).2
  ∧ aggregator.sampled (aggregator.flush Histogram_flush ts h).2 = false
  ∧ aggregator.histogram (aggregator.addSample Histogram_addSample s t (aggregator.flush Histogram_flush ts h).2)
    = aggregator.histogram (aggregator.flush Histogram_flush ts h).2
  ∧ aggregator.sampled (aggregator.addSample Histogram_addSample s t (aggregator.flush Histogram_flush ts h).2) = false.
Proof.
  intros Hsampled. unfold aggregator.flush. rewrite Hsampled. simpl.
  destruct (Histogram_flush ts (aggregator.histogram h)) as [r hist]. simpl.
  auto.
Qed.

(** X16: a flush that finds the historate not sampled reports no serie and
    resets nothing.  After a period with a single sample the next sample is
    therefore rated against that sample, across the flush, and makes the
    historate sampled. *)
Theorem failed_flush_keeps_base
    (ts : float) (h : aggregator.Historate Histogram)
    (s : aggregator.MetricSample) (t : float) :
  aggregator.sampled h = false →
  aggregator.nonzero (aggregator.previousTimestamp h) = true →
  aggregator.flush Histogram_flush ts h = (([], Some aggregator.NoSerieError), h)
  ∧ aggregator.histogram (aggregator.addSample Histogram_addSample s t (aggregator.flush Histogram_flush ts h).2)
    = Histogram_addSample
        {| aggregator.Value :=
             PrimFloat.div
               (PrimFloat.sub (aggregator.Value s) (aggregator.previousSample h))
               (PrimFloat.sub t (aggregator.previousTimestamp h)) |}
        t (aggregator.histogram h)
  ∧ aggregator.sampled (aggregator.addSample Histogram_addSample s t (aggregator.flush Histogram_flush ts h).2) = true.
Proof.
  intros Hsampled Hprev. unfold aggregator.flush. rewrite Hsampled. simpl.
  unfold aggregator.addSample. rewrite Hprev. simpl. auto.
Qed.

(** X17: a sample at timestamp zero breaks the chain of rates: the sample
    that follows it reaches the histogram not at all, whatever came before,
    and only becomes the base of the rate after it. *)
Theorem zero_timestamp_breaks_chain
    (s1 s2 : aggregator.MetricSample) (t1 t2 : float)
    (h : aggregator.Historate Histogram) :
  aggregator.nonzero t1 = false →
  aggregator.histogram (aggregator.addSample Histogram_addSample s2 t2 (aggregator.addSample Histogram_addSample s1 t1 h))
  = aggregator.histogram (aggregator.addSample Histogram_addSample s1 t1 h)
  ∧ aggregator.sampled (aggregator.addSample Histogram_addSample s2 t2 (aggregator.addSample Histogram_addSample s1 t1 h))
    = aggregator.sampled (aggregator.addSample Histogram_addSample s1 t1 h)
  ∧ aggregator.previousSample (aggregator.addSample Histogram_addSample s2 t2 (aggregator.addSample Histogram_addSample s1 t1 h))
    = aggregator.Value s2
  ∧ aggregator.previousTimestamp (aggregator.addSample Histogram_addSample s2 t2 (aggregator.addSample Histogram_addSample s1 t1 h)) = t2.
Proof.
  intros Ht1. unfold aggregator.addSample at 1 3 5 7. simpl. rewrite Ht1. auto.
Qed.

End HistorateProperties.

Lemma single_sample_reports_nothing_witness :
  aggregator.nonzero (aggregator.previousTimestamp rate_sample.fresh) = false
  ∧ aggregator.sampled rate_sample.fresh = false
  ∧ (aggregator.flush rate_sample.report 2%float
       (aggregator.addSample rate_sample.keep
          {| aggregator.Value := 10%float |} 1%float rate_sample.fresh)).1
    = ([], Some aggregator.NoSerieError).
Proof.
  split; [reflexivity|]. split; [reflexivity|].
  destruct (single_sample_reports_nothing rate_sample.keep rate_sample.report
              {| aggregator.Value := 10%float |} 1%float 2%float
              rate_sample.fresh eq_refl eq_refl) as (_ & Hflush & _).
  rewrite Hflush. reflexivity.
Defined.

Lemma samples_feed_consecutive_rates_witness :
  aggregator.nonzero (aggregator.previousTimestamp rate_sample.fresh) = false
  ∧ aggregator.nonzero 1%float = true
  ∧ aggregator.histogram
      (aggregator.addSamples rate_sample.keep rate_sample.readings
         rate_sample.fresh)
    = [({| aggregator.Value := 0.5%float |}, 5%float);
       ({| aggregator.Value := 3%float |}, 3%float)].
Proof.
  split; [reflexivity|]. split; [reflexivity|].
  destruct (samples_feed_consecutive_rates rate_sample.keep
              {| aggregator.Value := 10%float |} 1%float
              (tail rate_sample.readings) rate_sample.fresh eq_refl eq_refl)
    as (Hhist & _).
  - repeat constructor.
  - exact Hhist.
Defined.

Lemma flush_starts_new_period_witness :
  aggregator.sampled
    (aggregator.addSamples rate_sample.keep rate_sample.readings
       rate_sample.fresh) = true
  ∧ (aggregator.flush rate_sample.report 6%float
       (aggregator.addSamples rate_sample.keep rate_sample.readings
          rate_sample.fresh)).1 = ([2], None).
Proof.
  split; [reflexivity|].
  destruct (flush_starts_new_period rate_sample.keep rate_sample.report 6%float
              (aggregator.addSamples rate_sample.keep rate_sample.readings
                 rate_sample.fresh)
              {| aggregator.Value := 20%float |} 7%float eq_refl)
    as (Hflush & _).
  rewrite Hflush. reflexivity.
Defined.

Lemma failed_flush_keeps_base_witness :
  let h := aggregator.addSample rate_sample.keep
             {| aggregator.Value := 10%float |} 1%float rate_sample.fresh in
  aggregator.sampled h = false
  ∧ aggregator.nonzero (aggregator.previousTimestamp h) = true
  ∧ aggregator.histogram
      (aggregator.addSample rate_sample.keep {| aggregator.Value := 16%float |}
         3%float (aggregator.flush rate_sample.report 2%float h).2)
    = [({| aggregator.Value := 3%float |}, 3%float)].
Proof.
  cbv zeta. split; [reflexivity|]. split; [reflexivity|].
  destruct (failed_flush_keeps_base rate_sample.keep rate_sample.report 2%float
              (aggregator.addSample rate_sample.keep
                 {| aggregator.Value := 10%float |} 1%float rate_sample.fresh)
              {| aggregator.Value := 16%float |} 3%float eq_refl eq_refl)
    as (_ & Hhist & _).
  rewrite Hhist. reflexivity.
Defined.

Lemma zero_timestamp_breaks_chain_witness :
  aggregator.nonzero (-0)%float = false
  ∧ aggregator.histogram
      (aggregator.addSample rate_sample.keep {| aggregator.Value := 30%float |}
         9%float
         (aggregator.addSample rate_sample.keep
            {| aggregator.Value := 20%float |} (-0)%float
            (aggregator.addSamples rate_sample.keep rate_sample.readings
               rate_sample.fresh)))
    = aggregator.histogram
        (aggregator.addSample rate_sample.keep
           {| aggregator.Value := 20%float |} (-0)%float
           (aggregator.addSamples rate_sample.keep rate_sample.readings
              rate_sample.fresh)).
Proof.
  split; [reflexivity|].
  exact (proj1 (zero_timestamp_breaks_chain rate_sample.keep
                  {| aggregator.Value := 20%float |}
                  {| aggregator.Value := 30%float |} (-0)%float 9%float
                  (aggregator.addSamples rate_sample.keep rate_sample.readings
                     rate_sample.fresh) eq_refl)).
Defined.
